(** * House-cusp engine of [src/calculate_houses.py]

    A shallow embedding of [calculate_houses]: the angle solver (RAMC,
    obliquity, MC, ASC), the Equal and Koch cusp formulas, the Placidus
    root-finder with its nested helpers and the result handling of the
    Swiss Ephemeris path; of [calculate_planets]; and of the chart
    assembly of [holoscope_service.py].

    Conventions of the embedding.
    - A Python [float] is read as a real number: arithmetic is exact, so
      rounding, NaN and infinities are outside this reading.  [%] is
      Python's floored remainder, [math.*] are the functions of
      [Stdlib.Reals] ([tan] at an odd multiple of 90 degrees is what
      [Stdlib.Reals] makes of it; no statement below depends on that
      value).  A statement proved in this reading holds of the code where
      both sides are the same float expression, where it compares or
      counts, or up to rounding where it carries a tolerance.
    - Where the answer depends on rounding or on NaN, the code is run on
      binary64 numbers instead: the module [Binary64] repeats the window
      scan and the Koch cusp sums over the kernel's primitive floats, with
      Python's [%] written out.
    - Skyfield and pyswisseph are collaborators: the time object [t] built
      from [dt_utc], of which the code reads [t.gast] and [t.tt], the
      ecliptic positions of the planets and the tuples of [swe.houses] are
      inputs.
    - [print] calls have no effect on the result and are left out, except
      where computing their argument can raise.
    - A [while True] loop takes a fuel argument; running out of it is the
      outcome [OutOfFuel]. *)

From Stdlib Require Import Floats.
From Stdlib Require Import Reals Lra Lia ZArith String List.
From Stdlib Require Import Zfloor Btauto.
From stdpp Require Import gmap.

Open Scope R_scope.

(* Decimal float literals are rounded to the nearest binary64 number, as
   Python rounds them. *)
Set Warnings "-inexact-float".

(** ** Python numerics *)

(** [x % m] on floats: the result has the sign of the divisor. *)
Definition pymod (x m : R) : R := x - m * IZR (Zfloor (x / m)).

(** [int(x)]: truncation towards zero. *)
Definition py_int (x : R) : Z :=
  if Rle_dec 0 x then Zfloor x else (- Zfloor (- x))%Z.

Definition radians (x : R) : R := x * PI / 180.
Definition degrees (x : R) : R := x * 180 / PI.

(** [math.atan2(y, x)], by quadrant. *)
Definition atan2 (y x : R) : R :=
  if Rlt_dec 0 x then atan (y / x)
  else if Rlt_dec x 0 then
    (if Rle_dec 0 y then atan (y / x) + PI else atan (y / x) - PI)
  else if Rlt_dec 0 y then PI / 2
  else if Rlt_dec y 0 then - (PI / 2)
  else 0.

(** Outcome of a call: a value, a Python exception, or fuel exhausted. *)
Inductive exn : Type :=
  | ZeroDivisionError
  | ValueError.   (* what a range check would raise; Skyfield raises it on a
                     naive datetime *)

Inductive run (A : Type) : Type :=
  | Returned (a : A)
  | Raised (e : exn)
  | OutOfFuel.

Arguments Returned {A} a.
Arguments Raised {A} e.
Arguments OutOfFuel {A}.

Definition run_bind {A B : Type} (m : run A) (k : A -> run B) : run B :=
  match m with
  | Returned a => k a
  | Raised e => Raised e
  | OutOfFuel => OutOfFuel
  end.

Notation "'let!' x ':=' m 'in' k" := (run_bind m (fun x => k))
  (at level 10, x name, m at level 100, k at level 200).

(** Comparisons of floats as booleans, for [or]-conditions. *)
Definition Rltb (x y : R) : bool := if Rlt_dec x y then true else false.
Definition Rleb (x y : R) : bool := if Rle_dec x y then true else false.
Definition Reqb (x y : R) : bool := if Req_dec_T x y then true else false.

(** [range(a, b)] *)
Definition py_range (a b : Z) : list Z := seqZ a (b - a).

(** ** Result records *)

(** [get_zodiac_sign_jp] of [calculate_planets.py]; the sign is kept as its
    index in the table [zodiac_signs_jp]. *)
Definition get_zodiac_sign_jp (longitude_deg : R) : Z :=
  (Zfloor (longitude_deg / 30) mod 12)%Z.

Record AnglePoint : Type := mkAnglePoint
  { ap_sign : Z; ap_longitude : R }.

Record House : Type := mkHouse
  { number : Z; sign : Z; longitude : R }.

Record Result : Type := mkResult
  { ascendant : AnglePoint;
    descendant : AnglePoint;
    mc : AnglePoint;
    ic : AnglePoint;
    houses : list House }.

(** What the code reads of Skyfield's time object. *)
Record Time : Type := mkTime
  { gast : R;   (* t.gast, hours *)
    tt : R      (* t.tt, Julian date *) }.

(** ** Helpers nested in the Placidus branch *)

Definition normalize_deg (x : R) : R :=
  let v := pymod x 360 in
  if Rlt_dec v 0 then v + 360 else v.

Definition circ_diff (a b : R) : R :=
  pymod (a - b + 180) 360 - 180.

Definition ra_dec_from_lambda (lambda_deg eps_deg : R) : R * R :=
  let lam := radians lambda_deg in
  let eps := radians eps_deg in
  let sinlam := sin lam in
  let coslam := cos lam in
  let sd := sin eps * sinlam in
  let delta := degrees (asin sd) in
  let y := sinlam * cos eps in
  let x := coslam in
  let alpha := degrees (atan2 y x) in
  let alpha := normalize_deg alpha in
  (alpha, delta).

Definition rising_hour_angle (delta_deg phi_deg : R) : option R :=
  let phi := radians phi_deg in
  let delta := radians delta_deg in
  let val := - tan phi * tan delta in
  if Rltb val (-1) || Rltb 1 val then None
  else Some (degrees (acos val)).

Definition oblique_ascension (lambda_deg eps_deg phi_deg : R) : option R :=
  let '(alpha, delta) := ra_dec_from_lambda lambda_deg eps_deg in
  match rising_hour_angle delta phi_deg with
  | None => None
  | Some h0 => Some (normalize_deg (alpha - h0))
  end.

(** *** [solve_lambda_by_OA]: window scan and bisection *)

(** The [for _ in range(30)] loop, entered with the bracket [lo, hi]. *)
Fixpoint bisection (n : nat) (F : R -> option R) (lo hi flo fhi : R) : R :=
  match n with
  | O => normalize_deg ((lo + hi) / 2)
  | S n' =>
      let mid := (lo + hi) / 2 in
      match F mid with
      | None => bisection n' F mid hi flo fhi
      | Some fmid =>
          if Rltb (Rabs fmid) 1e-6 then normalize_deg mid
          else if Rleb (flo * fmid) 0 then bisection n' F lo mid flo fmid
          else bisection n' F mid hi fmid fhi
      end
  end.

(** The generator [iter_window], run to its end: the list of the angles
    it yields.  The first angle is yielded before the [while True] loop and
    is never tested against the window end. *)
Fixpoint iter_window_loop (fuel : nat) (angle end_n step : R) : run (list R) :=
  match fuel with
  | O => OutOfFuel
  | S fuel' =>
      let angle := normalize_deg (angle + step) in
      if Rleb (Rabs (circ_diff angle end_n)) (step * 0.5) then Returned [angle]
      else
        let! rest := iter_window_loop fuel' angle end_n step in
        Returned (angle :: rest)
  end.

Definition iter_window (fuel : nat) (start end_ step : R) : run (list R) :=
  let angle := normalize_deg (start + step) in
  let end_n := normalize_deg end_ in
  let! rest := iter_window_loop fuel angle end_n step in
  Returned (angle :: rest).

(** Body of [for lam in iter_window(...)]: either a [return] of the
    function ([inl]) or the next [(prev_lam, prev_val)] ([inr]). *)
Definition scan_body (F : R -> option R)
    (prev : option R * option R) (lam : R) : R + (option R * option R) :=
  let val := F lam in
  match prev, val with
  | (Some prev_lam, Some prev_val), Some v =>
      if Reqb prev_val 0 then inl prev_lam
      else if Reqb v 0 then inl lam
      else if Rltb (prev_val * v) 0 then inl (bisection 30 F prev_lam lam prev_val v)
      else inr (Some lam, val)
  | _, _ => inr (Some lam, val)
  end.

(** The [for] loop over a list of angles already produced. *)
Fixpoint scan_list (F : R -> option R) (prev : option R * option R)
    (angles : list R) : option R :=
  match angles with
  | [] => None
  | lam :: angles' =>
      match scan_body F prev lam with
      | inl root => Some root
      | inr prev' => scan_list F prev' angles'
      end
  end.

(** The loop as Python runs it: the [while True] of the generator
    interleaved with its consumer (advance, yield to [scan_body], then test
    the stop condition), so that a [return] of the consumer ends the scan
    without running the generator further. *)
Fixpoint scan_while (fuel : nat) (F : R -> option R) (end_n step : R)
    (prev : option R * option R) (angle : R) : run (option R) :=
  match fuel with
  | O => OutOfFuel
  | S fuel' =>
      let angle := normalize_deg (angle + step) in
      match scan_body F prev angle with
      | inl root => Returned (Some root)
      | inr prev' =>
          if Rleb (Rabs (circ_diff angle end_n)) (step * 0.5) then Returned None
          else scan_while fuel' F end_n step prev' angle
      end
  end.

(** [for lam in iter_window(win_start, win_end, init_step_deg)] *)
Definition scan_window (fuel : nat) (F : R -> option R)
    (start end_ step : R) : run (option R) :=
  let angle := normalize_deg (start + step) in
  let end_n := normalize_deg end_ in
  match scan_body F (None, None) angle with
  | inl root => Returned (Some root)
  | inr prev => scan_while fuel F end_n step prev angle
  end.

(** *** [solve_with_fallback]: dense sampling and secant *)

(** [for s in sign_factor_opts] at one sample angle. *)
Definition sample_angle (F_val : R -> R -> option R) (sign_factor_opts : list R)
    (angle : R) (best : option (R * R * R)) : option (R * R * R) :=
  fold_left
    (fun best s =>
       match F_val angle s with
       | None => best
       | Some fv =>
           let af := Rabs fv in
           match best with
           | None => Some (af, angle, s)
           | Some (b0, _, _) => if Rltb af b0 then Some (af, angle, s) else best
           end
       end)
    sign_factor_opts best.

Fixpoint sample_while (fuel : nat) (F_val : R -> R -> option R)
    (sign_factor_opts : list R) (end_n sample_step : R)
    (best : option (R * R * R)) (angle : R) (guard : Z)
    : run (option (R * R * R)) :=
  match fuel with
  | O => OutOfFuel
  | S fuel' =>
      let best := sample_angle F_val sign_factor_opts angle best in
      let angle := normalize_deg (angle + sample_step) in
      let guard := (guard + 1)%Z in
      if Rleb (Rabs (circ_diff angle end_n)) (sample_step * 0.5)
         || (py_int (360 / sample_step) + 5 <? guard)%Z
      then Returned best
      else sample_while fuel' F_val sign_factor_opts end_n sample_step best angle guard
  end.

(** The [for _ in range(20)] secant loop. *)
Fixpoint secant (n : nat) (F_val : R -> R -> option R) (s0 win_start win_end : R)
    (lam0 f0 lam1 f1 : R) : R :=
  match n with
  | O => lam1
  | S n' =>
      if Reqb (f1 - f0) 0 then lam1
      else
        let lam2 := normalize_deg (lam1 - f1 * (lam1 - lam0) / (f1 - f0)) in
        let lam2 :=
          if Rltb (circ_diff lam2 win_start) 0 || Rltb (circ_diff win_end lam2) 0
          then normalize_deg ((win_start + win_end) / 2)
          else lam2 in
        match F_val lam2 s0 with
        | None => lam1
        | Some f2 =>
            if Rltb (Rabs f2) 1e-6 then lam2
            else secant n' F_val s0 win_start win_end lam1 f1 lam2 f2
        end
  end.

Section Placidus.

(** Captured by the nested closures [F] and [F_val]. *)
Variables (obliquity_degrees latitude : R).

(** [F] of [solve_lambda_by_OA]. *)
Definition F (base n_frac sign_factor : R) (use_descension : bool)
    (lam_deg : R) : option R :=
  let '(alpha, delta) := ra_dec_from_lambda lam_deg obliquity_degrees in
  match rising_hour_angle delta latitude with
  | None => None
  | Some h0 =>
      let x_val := if use_descension then normalize_deg (alpha + h0)
                   else normalize_deg (alpha - h0) in
      let lhs := circ_diff base x_val in
      let rhs := sign_factor * n_frac * h0 in
      Some (lhs - rhs)
  end.

Definition solve_lambda_by_OA (fuel : nat)
    (n_frac base_ramc sign_factor win_start win_end init_step_deg : R)
    (use_descension : bool) : run (option R) :=
  let base := normalize_deg base_ramc in
  scan_window fuel (F base n_frac sign_factor use_descension)
    win_start win_end init_step_deg.

(** [F_val] of [solve_with_fallback]. *)
Definition F_val (base n_frac : R) (use_descension : bool)
    (lam_deg sign_factor : R) : option R :=
  let '(alpha, delta) := ra_dec_from_lambda lam_deg obliquity_degrees in
  match rising_hour_angle delta latitude with
  | None => None
  | Some h0 =>
      let x_val := if use_descension then normalize_deg (alpha + h0)
                   else normalize_deg (alpha - h0) in
      let lhs := circ_diff base x_val in
      let rhs := sign_factor * n_frac * h0 in
      Some (lhs - rhs)
  end.

Definition solve_with_fallback (fuel : nat)
    (n_frac base_ramc win_start win_end : R) (use_descension : bool)
    (sign_factor_opts : list R) (sample_step : R) : run (option R) :=
  let base := normalize_deg base_ramc in
  let fv := F_val base n_frac use_descension in
  let angle := normalize_deg win_start in
  let end_n := normalize_deg win_end in
  let! best := sample_while fuel fv sign_factor_opts end_n sample_step None angle 0 in
  match best with
  | None => Returned None
  | Some (_, lam0, s0) =>
      let lam1 := normalize_deg (lam0 + sample_step) in
      match fv lam0 s0, fv lam1 s0 with
      | Some f0, Some f1 =>
          Returned (Some (secant 20 fv s0 win_start win_end lam0 f0 lam1 f1))
      | _, _ => Returned (Some lam0)
      end
  end.

Definition win_ccw (start end_ : R) : R * R :=
  (normalize_deg start, normalize_deg end_).

(** [cv_map.get(k)]: a missing key and a stored [None] both read as
    [None]. *)
Definition cv_get (cv_map : gmap Z (option R)) (k : Z) : option R :=
  default None (cv_map !! k).

(** [{num: val for num, val in cusp_values}] *)
Definition dict_of (cusp_values : list (Z * option R)) : gmap Z (option R) :=
  fold_left (fun m kv => <[fst kv := snd kv]> m) cusp_values ∅.

(** [if cv_map.get(src) is not None: cv_map[dst] = normalize_deg(cv_map[src] + 180.0)] *)
Definition reflect_cusp (src dst : Z) (cv_map : gmap Z (option R))
    : gmap Z (option R) :=
  match cv_get cv_map src with
  | Some v => <[dst := Some (normalize_deg (v + 180))]> cv_map
  | None => cv_map
  end.

(** The four solved cusps, with the calls as the code makes them. *)
Definition solve_c11 (fuel : nat) (ramc_degrees : R) (win_mc_asc : R * R) :=
  solve_lambda_by_OA fuel (2 / 3) ramc_degrees 1
    (fst win_mc_asc) (snd win_mc_asc) 0.5 false.

Definition solve_c12 (fuel : nat) (ramc_degrees : R) (win_mc_asc : R * R)
    (c11 : option R) :=
  solve_lambda_by_OA fuel (1 / 3) ramc_degrees 1
    (match c11 with Some v => v | None => fst win_mc_asc end)
    (snd win_mc_asc) 0.5 false.

Definition solve_c3 (fuel : nat) (ramc_degrees : R) (win_asc_ic : R * R) :=
  let! c3 := solve_lambda_by_OA fuel (2 / 3) (ramc_degrees + 180) 1
               (fst win_asc_ic) (snd win_asc_ic) 0.1 true in
  match c3 with
  | None => solve_with_fallback fuel (2 / 3) (ramc_degrees + 180)
              (fst win_asc_ic) (snd win_asc_ic) true [1; -1] 0.05
  | Some _ => Returned c3
  end.

Definition solve_c2 (fuel : nat) (ramc_degrees : R) (win_asc_ic : R * R)
    (c3 : option R) :=
  let win_end := match c3 with Some v => v | None => snd win_asc_ic end in
  let! c2 := solve_lambda_by_OA fuel (1 / 3) (ramc_degrees + 180) 1
               (fst win_asc_ic) win_end 0.1 true in
  match c2 with
  | None => solve_with_fallback fuel (1 / 3) (ramc_degrees + 180)
              (fst win_asc_ic) win_end true [1; -1] 0.05
  | Some _ => Returned c2
  end.

(** [cv_map] after the reflection of 11, 12, 2, 3 into 5, 6, 8, 9. *)
Definition placidus_cv_map (fuel : nat)
    (ramc_degrees asc_longitude mc_longitude : R) : run (gmap Z (option R)) :=
  let asc := normalize_deg asc_longitude in
  let mc := normalize_deg mc_longitude in
  let dsc := normalize_deg (asc + 180) in
  let ic := normalize_deg (mc + 180) in
  let win_asc_ic := win_ccw asc ic in
  let win_mc_asc := win_ccw mc asc in
  let c1 := normalize_deg asc_longitude in
  let! c11 := solve_c11 fuel ramc_degrees win_mc_asc in
  let! c12 := solve_c12 fuel ramc_degrees win_mc_asc c11 in
  let c10 := normalize_deg mc_longitude in
  let c7 := normalize_deg (asc_longitude + 180) in
  let c4 := normalize_deg (mc_longitude + 180) in
  let! c3 := solve_c3 fuel ramc_degrees win_asc_ic in
  let! c2 := solve_c2 fuel ramc_degrees win_asc_ic c3 in
  let cusp_values :=
    [(1, Some c1); (11, c11); (12, c12); (10, Some c10);
     (7, Some c7); (4, Some c4); (3, c3); (2, c2)]%Z in
  let cv_map := dict_of cusp_values in
  let cv_map := reflect_cusp 11 5 cv_map in
  let cv_map := reflect_cusp 12 6 cv_map in
  let cv_map := reflect_cusp 2 8 cv_map in
  let cv_map := reflect_cusp 3 9 cv_map in
  Returned cv_map.

Definition equal_fallback (asc_longitude : R) : list R :=
  map (fun i => normalize_deg (asc_longitude + IZR i * 30)) (py_range 0 12).

(** [number_to_long[i]]; the index [(i - 1) % 12] is below the length 12
    of [equal_fallback]. *)
Definition number_to_long (cv_map : gmap Z (option R)) (asc_longitude : R)
    (i : Z) : R :=
  match cv_get cv_map i with
  | None => nth (Z.to_nat ((i - 1) mod 12)) (equal_fallback asc_longitude) 0
  | Some val => normalize_deg val
  end.

Definition placidus_houses (fuel : nat)
    (ramc_degrees asc_longitude mc_longitude : R) : run (list House) :=
  let! cv_map := placidus_cv_map fuel ramc_degrees asc_longitude mc_longitude in
  Returned
    (map (fun i =>
            let lon := number_to_long cv_map asc_longitude i in
            mkHouse i (get_zodiac_sign_jp lon) lon)
         (py_range 1 13)).

End Placidus.

(** ** [calculate_houses] *)

Definition equal_houses (asc_longitude : R) : list House :=
  map (fun i =>
         let cusp_longitude := pymod (asc_longitude + IZR i * 30) 360 in
         mkHouse (i + 1) (get_zodiac_sign_jp cusp_longitude) cusp_longitude)
      (py_range 0 12).

(** [enumerate(house_cusps)] *)
Fixpoint enumerate {A : Type} (i : Z) (l : list A) : list (Z * A) :=
  match l with
  | [] => []
  | x :: l' => (i, x) :: enumerate (i + 1) l'
  end.

Definition koch_houses (asc_longitude mc_longitude : R) : list House :=
  let house_cusps :=
    [ asc_longitude;
      pymod (asc_longitude + 30) 360;
      pymod (asc_longitude + 60) 360;
      pymod (mc_longitude + 180) 360;
      pymod (asc_longitude + 120) 360;
      pymod (asc_longitude + 150) 360;
      pymod (asc_longitude + 180) 360;
      pymod (asc_longitude + 210) 360;
      pymod (asc_longitude + 240) 360;
      mc_longitude;
      pymod (asc_longitude + 300) 360;
      pymod (asc_longitude + 330) 360 ] in
  map (fun ic => let '(i, cusp_longitude) := ic in
                 mkHouse (i + 1) (get_zodiac_sign_jp cusp_longitude) cusp_longitude)
      (enumerate 0 house_cusps).

(** The angle solver, with the names of the local variables. *)
Definition ramc_degrees_of (t : Time) (longitude : R) : R :=
  let lst_skyfield := gast t + longitude / 15 in
  let lst_degrees := pymod (lst_skyfield * 15) 360 in
  lst_degrees.

Definition obliquity_degrees_of (t : Time) : R :=
  let jd_tt := tt t in
  let T := (jd_tt - 2451545) / 36525 in
  let eps_arcsec := 21.448 - 46.8150 * T - 0.00059 * (T ^ 2) + 0.001813 * (T ^ 3) in
  23 + 26 / 60 + eps_arcsec / 3600.

Definition mc_longitude_of (ramc_degrees obliquity_degrees : R) : R :=
  let ramc_rad := radians ramc_degrees in
  let obliquity_rad := radians obliquity_degrees in
  pymod (degrees (atan2 (sin ramc_rad) (cos ramc_rad * cos obliquity_rad))) 360.

Definition asc_numerator_of (ramc_degrees : R) : R :=
  - cos (radians ramc_degrees).

Definition asc_denominator_of (ramc_degrees obliquity_degrees latitude : R) : R :=
  let ramc_rad := radians ramc_degrees in
  let obliquity_rad := radians obliquity_degrees in
  let lat_rad := radians latitude in
  cos obliquity_rad * sin ramc_rad + tan lat_rad * sin obliquity_rad.

Definition asc_longitude_of (ramc_degrees obliquity_degrees latitude : R) : R :=
  let asc_numerator := asc_numerator_of ramc_degrees in
  let asc_denominator := asc_denominator_of ramc_degrees obliquity_degrees latitude in
  let asc_longitude := degrees (atan2 asc_numerator asc_denominator) in
  let asc_longitude := if Rltb asc_longitude 0 then asc_longitude + 360
                       else asc_longitude in
  pymod (asc_longitude + 180) 360.

Definition calculate_houses (fuel : nat) (t : Time) (latitude longitude : R)
    (system : string) : run Result :=
  let ramc_degrees := ramc_degrees_of t longitude in
  let obliquity_degrees := obliquity_degrees_of t in
  let mc_longitude := mc_longitude_of ramc_degrees obliquity_degrees in
  (* asc_tan = asc_numerator / asc_denominator, used by a debug print only *)
  if Reqb (asc_denominator_of ramc_degrees obliquity_degrees latitude) 0
  then Raised ZeroDivisionError
  else
    let asc_longitude := asc_longitude_of ramc_degrees obliquity_degrees latitude in
    let! houses :=
      if String.eqb system "equal" then Returned (equal_houses asc_longitude)
      else if String.eqb system "koch" then Returned (koch_houses asc_longitude mc_longitude)
      else placidus_houses obliquity_degrees latitude fuel
             ramc_degrees asc_longitude mc_longitude in
    let dc_longitude := pymod (asc_longitude + 180) 360 in
    let ic_longitude := pymod (mc_longitude + 180) 360 in
    Returned
      (mkResult
         (mkAnglePoint (get_zodiac_sign_jp asc_longitude) asc_longitude)
         (mkAnglePoint (get_zodiac_sign_jp dc_longitude) dc_longitude)
         (mkAnglePoint (get_zodiac_sign_jp mc_longitude) mc_longitude)
         (mkAnglePoint (get_zodiac_sign_jp ic_longitude) ic_longitude)
         houses).

(** Reading a result: the longitude of the house numbered [i]. *)
Definition cusp (r : Result) (i : Z) : option R :=
  match List.find (fun h => (number h =? i)%Z) (houses r) with
  | Some h => Some (longitude h)
  | None => None
  end.

(** ** The Swiss Ephemeris engine of [calculate_houses]

    With [HOUSE_ENGINE=SWISS] the function first tries pyswisseph inside a
    [try] whose [except Exception] falls through to the formula path.  The
    library is a collaborator: what its calls did is an input. *)

(** Assembly of the result from the tuples [cusps] and [ascmc] that
    [swe.houses] returned; [None] is an [IndexError] on a short tuple. *)
Definition swiss_result (cusps ascmc : list R) : option Result :=
  match ascmc !! 0%nat, ascmc !! 1%nat with
  | Some a0, Some a1 =>
      let asc_longitude := pymod a0 360 in
      let mc_longitude := pymod a1 360 in
      let dc_longitude := pymod (asc_longitude + 180) 360 in
      let ic_longitude := pymod (mc_longitude + 180) 360 in
      let zero_based := Nat.eqb (length cusps) 12 in
      match
        mapM (fun i =>
                let idx := if zero_based then (i - 1)%Z else i in
                match cusps !! Z.to_nat idx with
                | Some c => let lon := pymod c 360 in
                            Some (mkHouse i (get_zodiac_sign_jp lon) lon)
                | None => None
                end)
             (py_range 1 13)
      with
      | Some houses_list =>
          Some (mkResult
                  (mkAnglePoint (get_zodiac_sign_jp asc_longitude) asc_longitude)
                  (mkAnglePoint (get_zodiac_sign_jp dc_longitude) dc_longitude)
                  (mkAnglePoint (get_zodiac_sign_jp mc_longitude) mc_longitude)
                  (mkAnglePoint (get_zodiac_sign_jp ic_longitude) ic_longitude)
                  houses_list)
      | None => None
      end
  | _, _ => None
  end.

(** What happened inside the [try] of the Swiss path.  Right after the
    import, and before any call of the library, [dt_utc] is rebound to a
    timezone-aware datetime ([replace(tzinfo=utc)] for a naive one,
    [astimezone(utc)] otherwise), so a failure after the import leaves the
    rebound [dt_utc] to the formula path. *)
Inductive swiss_attempt : Type :=
  | ImportFailed                             (* [import swisseph] raised *)
  | LibraryRaised                            (* a later call raised *)
  | HousesReturned (cusps ascmc : list R).   (* [swe.houses] returned *)

(** The formula path entered with [dt_utc]: [ts.from_datetime] of Skyfield
    raises [ValueError] on a naive datetime.  [t] is the time of [dt_utc]
    read in UTC. *)
Definition formula_path (tz_aware : bool)
    (fuel : nat) (t : Time) (latitude longitude : R) (system : string)
    : run Result :=
  if tz_aware then calculate_houses fuel t latitude longitude system
  else Raised ValueError.

(** [calculate_houses] with its engine switch: [engine_is_swiss] is the test
    on the environment variable, [tz_aware] is [dt_utc.tzinfo is not None]
    for the [dt_utc] of the caller. *)
Definition calculate_houses_with_engine (engine_is_swiss : bool)
    (swe : swiss_attempt) (tz_aware : bool)
    (fuel : nat) (t : Time) (latitude longitude : R) (system : string)
    : run Result :=
  if engine_is_swiss then
    match swe with
    | ImportFailed => formula_path tz_aware fuel t latitude longitude system
    | LibraryRaised => formula_path true fuel t latitude longitude system
    | HousesReturned cusps ascmc =>
        match swiss_result cusps ascmc with
        | Some result => Returned result
        | None => formula_path true fuel t latitude longitude system
        end
    end
  else formula_path tz_aware fuel t latitude longitude system.

(** ** [calculate_planets.py] *)

Definition zodiac_signs_jp : list string :=
  ["牡羊座"; "牡牛座"; "双子座"; "蟹座"; "獅子座"; "乙女座";
   "天秤座"; "蠍座"; "射手座"; "山羊座"; "水瓶座"; "魚座"]%string.

(** The string that [get_zodiac_sign_jp] returns: [zodiac_signs_jp[index]]. *)
Definition zodiac_sign_name (longitude_deg : R) : string :=
  nth (Z.to_nat (get_zodiac_sign_jp longitude_deg)) zodiac_signs_jp ""%string.

(** The fields of a [datetime] that the code reads or replaces. *)
Record DateTime : Type := mkDateTime
  { dt_year : Z; dt_month : Z; dt_day : Z;
    dt_hour : Z; dt_minute : Z; dt_second : Z; dt_microsecond : Z }.

(** [dt.replace(day=d)] *)
Definition replace_day (dt : DateTime) (d : Z) : DateTime :=
  mkDateTime (dt_year dt) (dt_month dt) d
             (dt_hour dt) (dt_minute dt) (dt_second dt) (dt_microsecond dt).

Record PlanetDict : Type := mkPlanetDict
  { name_jp : string;
    name_en : Z;            (* str(planet_id) *)
    pd_longitude : R;
    pd_latitude : R;
    pd_sign : string;
    pd_retrograde : bool }.

Definition planet_map : list (Z * string) :=
  [(10, "太陽"); (301, "月"); (199, "水星"); (299, "金星"); (4, "火星");
   (5, "木星"); (6, "土星"); (7, "天王星"); (8, "海王星"); (9, "冥王星")]%Z%string.

Section Ephemeris.

(** Skyfield as a collaborator: the geocentric ecliptic latitude and
    longitude, in degrees, of body [planet_id] at the time of a datetime,
    [eph["earth"].at(ts.from_datetime(dt)).observe(eph[planet_id])
       .frame_latlon(ecliptic_frame)]. *)
Variable ecliptic_latlon : Z -> DateTime -> R * R.

Definition calculate_planets (dt_utc : DateTime) : list PlanetDict :=
  map (fun entry : Z * string =>
         let '(planet_id, jp_name) := entry in
         let ecl := ecliptic_latlon planet_id dt_utc in
         let lon := pymod (snd ecl) 360 in
         let lat := fst ecl in
         let t_prev := replace_day dt_utc (Z.max 1 (dt_day dt_utc - 1)) in
         let lon_prev := pymod (snd (ecliptic_latlon planet_id t_prev)) 360 in
         let retrograde := Rltb lon lon_prev in
         mkPlanetDict jp_name planet_id lon lat (zodiac_sign_name lon) retrograde)
      planet_map.

End Ephemeris.

(** ** [holoscope_service.py] *)

Record PlanetInfo : Type := mkPlanetInfo
  { pi_name : string;
    pi_sign : string;
    pi_longitude : R;
    pi_house : Z;
    pi_retrograde : bool }.

Record HouseInfo : Type := mkHouseInfo
  { hi_number : Z; hi_sign : string; hi_longitude : R }.

Record ElementsInfo : Type := mkElementsInfo
  { fire : Z; earth : Z; air : Z; water : Z }.

Record QualitiesInfo : Type := mkQualitiesInfo
  { cardinal : Z; fixed : Z; mutable : Z }.

(** Exceptions of the service helpers. *)
Inductive service_exn : Type :=
  | IndexError.

Inductive attempt (A : Type) : Type :=
  | Done (a : A)
  | Failed (e : service_exn).

Arguments Done {A} a.
Arguments Failed {A} e.

(** [s in signs] on a list of strings *)
Definition py_in (s : string) (signs : list string) : bool :=
  existsb (String.eqb s) signs.

Definition fire_signs : list string := ["牡羊座"; "獅子座"; "射手座"]%string.
Definition earth_signs : list string := ["牡牛座"; "乙女座"; "山羊座"]%string.
Definition air_signs : list string := ["双子座"; "天秤座"; "水瓶座"]%string.
Definition water_signs : list string := ["蟹座"; "蠍座"; "魚座"]%string.

(** [_calculate_elements]; the angle arguments of the method are unused. *)
Definition calculate_elements (planets : list PlanetInfo) : ElementsInfo :=
  fold_left
    (fun acc p =>
       if py_in (pi_sign p) fire_signs
       then mkElementsInfo (fire acc + 1) (earth acc) (air acc) (water acc)
       else if py_in (pi_sign p) earth_signs
       then mkElementsInfo (fire acc) (earth acc + 1) (air acc) (water acc)
       else if py_in (pi_sign p) air_signs
       then mkElementsInfo (fire acc) (earth acc) (air acc + 1) (water acc)
       else if py_in (pi_sign p) water_signs
       then mkElementsInfo (fire acc) (earth acc) (air acc) (water acc + 1)
       else acc)
    planets (mkElementsInfo 0 0 0 0).

Definition cardinal_signs : list string :=
  ["牡羊座"; "蟹座"; "天秤座"; "山羊座"]%string.
Definition fixed_signs : list string :=
  ["牡牛座"; "獅子座"; "蠍座"; "水瓶座"]%string.
Definition mutable_signs : list string :=
  ["双子座"; "乙女座"; "射手座"; "魚座"]%string.

(** [_calculate_qualities]; the angle arguments of the method are unused. *)
Definition calculate_qualities (planets : list PlanetInfo) : QualitiesInfo :=
  fold_left
    (fun acc p =>
       if py_in (pi_sign p) cardinal_signs
       then mkQualitiesInfo (cardinal acc + 1) (fixed acc) (mutable acc)
       else if py_in (pi_sign p) fixed_signs
       then mkQualitiesInfo (cardinal acc) (fixed acc + 1) (mutable acc)
       else if py_in (pi_sign p) mutable_signs
       then mkQualitiesInfo (cardinal acc) (fixed acc) (mutable acc + 1)
       else acc)
    planets (mkQualitiesInfo 0 0 0).

(** The test of [_assign_planets_to_houses] for one house. *)
Definition in_house (start end_ lon : R) : bool :=
  if Rltb start end_ then Rleb start lon && Rltb lon end_
  else Rleb start lon || Rltb lon end_.

(** [for i in range(12)] with its [break]: the house number found, [None]
    when the loop ends without a match, [IndexError] on a missing cusp. *)
Fixpoint assign_loop (cusps : list R) (lon : R) (indices : list Z)
    : attempt (option Z) :=
  match indices with
  | [] => Done None
  | i :: indices' =>
      match cusps !! Z.to_nat i with
      | None => Failed IndexError
      | Some start =>
          match cusps !! Z.to_nat ((i + 1) mod 12) with
          | None => Failed IndexError
          | Some end_ =>
              if in_house start end_ lon then Done (Some (i + 1)%Z)
              else assign_loop cusps lon indices'
          end
      end
  end.

Definition assign_planet (cusps : list R) (p : PlanetInfo) : attempt PlanetInfo :=
  let lon := pymod (pi_longitude p) 360 in
  match assign_loop cusps lon (py_range 0 12) with
  | Done (Some h) =>
      Done (mkPlanetInfo (pi_name p) (pi_sign p) (pi_longitude p) h (pi_retrograde p))
  | Done None => Done p
  | Failed e => Failed e
  end.

(** [_assign_planets_to_houses]: the planets after the update of their
    [house] fields. *)
Fixpoint assign_planets (cusps : list R) (planets : list PlanetInfo)
    : attempt (list PlanetInfo) :=
  match planets with
  | [] => Done []
  | p :: planets' =>
      match assign_planet cusps p with
      | Failed e => Failed e
      | Done p' =>
          match assign_planets cusps planets' with
          | Failed e => Failed e
          | Done rest => Done (p' :: rest)
          end
      end
  end.

Definition assign_planets_to_houses (planets : list PlanetInfo)
    (houses : list HouseInfo) : attempt (list PlanetInfo) :=
  let cusps := map hi_longitude houses in
  assign_planets cusps planets.

(** The part of [create] after the two calculations: the planet and house
    objects, the house assignment and the two tallies. *)
Record Chart : Type := mkChart
  { ch_planets : list PlanetInfo;
    ch_houses : list HouseInfo;
    ch_elements : ElementsInfo;
    ch_qualities : QualitiesInfo }.

Definition planet_objects (planet_dicts : list PlanetDict) : list PlanetInfo :=
  map (fun p => mkPlanetInfo (name_jp p) (pd_sign p) (pd_longitude p) 0
                             (pd_retrograde p))
      planet_dicts.

Definition house_objects (house_result : Result) : list HouseInfo :=
  map (fun h => mkHouseInfo (number h)
                  (nth (Z.to_nat (sign h)) zodiac_signs_jp ""%string)
                  (longitude h))
      (houses house_result).

Definition create_chart (planet_dicts : list PlanetDict) (house_result : Result)
    : attempt Chart :=
  let planets := planet_objects planet_dicts in
  let houses := house_objects house_result in
  match assign_planets_to_houses planets houses with
  | Failed e => Failed e
  | Done planets =>
      Done (mkChart planets houses
                    (calculate_elements planets) (calculate_qualities planets))
  end.

(** What [scan_body] hands on: the previous angle is a scanned angle. *)
Definition prev_in_range (prev : option R * option R) : Prop :=
  match fst prev with
  | Some prev_lam => 0 <= prev_lam < 360
  | None => True
  end.

(** Samples of the scan without a sign change: two consecutive defined
    values always have a positive product. *)
Fixpoint no_sign_change (prev_val : option R) (vals : list (option R)) : Prop :=
  match vals with
  | [] => True
  | v :: vals' =>
      match prev_val, v with
      | Some a, Some b => 0 < a * b
      | _, _ => True
      end /\ no_sign_change v vals'
  end.

(** The first [n] angles visited by the sampling loop of
    [solve_with_fallback]. *)
Fixpoint sample_seq (n : nat) (angle sample_step : R) : list R :=
  match n with
  | O => []
  | S n' => angle :: sample_seq n' (normalize_deg (angle + sample_step)) sample_step
  end.

(** [best] is a sample of least |F| among the sampled angles and signs. *)
Definition least_sample (F_val : R -> R -> option R) (sign_factor_opts : list R)
    (angles : list R) (best : option (R * R * R)) : Prop :=
  match best with
  | None =>
      forall a s, In a angles -> In s sign_factor_opts -> F_val a s = None
  | Some (af, lam, s0) =>
      In lam angles /\ In s0 sign_factor_opts /\
      (exists v, F_val lam s0 = Some v /\ af = Rabs v) /\
      (forall a s v, In a angles -> In s sign_factor_opts ->
                     F_val a s = Some v -> af <= Rabs v)
  end.

(** The angle of the best sample is a sampled angle. *)
Definition best_in_range (best : option (R * R * R)) : Prop :=
  match best with
  | Some (_, lam, _) => 0 <= lam < 360
  | None => True
  end.

(** [x] lies between [a] and [b], whichever is the larger. *)
Definition between (a b x : R) : Prop := a <= x <= b \/ b <= x <= a.

(** [best] is a pair of least |F| among the pairs (angle, sign) tried. *)
Definition least_over (F_val : R -> R -> option R) (pairs : list (R * R))
    (best : option (R * R * R)) : Prop :=
  match best with
  | None => forall a s, In (a, s) pairs -> F_val a s = None
  | Some (af, lam, s0) =>
      In (lam, s0) pairs /\
      (exists v, F_val lam s0 = Some v /\ af = Rabs v) /\
      (forall a s v, In (a, s) pairs -> F_val a s = Some v -> af <= Rabs v)
  end.

(** House [h] (1..12) of the cusp list contains [lon]: the test that the
    loop of [_assign_planets_to_houses] makes at [i = h - 1]. *)
Definition house_contains (cusps : list R) (h : Z) (lon : R) : bool :=
  in_house (nth (Z.to_nat (h - 1)) cusps 0) (nth (Z.to_nat (h mod 12)) cusps 0) lon.

(** [p'] is [p] with its [house] set to the lowest-numbered house that
    contains its longitude; the other fields are untouched. *)
Definition placed_in_first_house (cusps : list R) (p p' : PlanetInfo) : Prop :=
  pi_name p' = pi_name p /\ pi_sign p' = pi_sign p /\
  pi_longitude p' = pi_longitude p /\ pi_retrograde p' = pi_retrograde p /\
  (1 <= pi_house p' <= 12)%Z /\
  house_contains cusps (pi_house p') (pymod (pi_longitude p) 360) = true /\
  forall h, (1 <= h < pi_house p')%Z ->
            house_contains cusps h (pymod (pi_longitude p) 360) = false.

(** Number of planets that satisfy a test. *)
Definition count_planets (f : PlanetInfo -> bool) (planets : list PlanetInfo) : Z :=
  Z.of_nat (length (List.filter f planets)).

(** The sign index of a planet's longitude, modulo [n], is [k]. *)
Definition sign_index_is (n k : Z) (p : PlanetInfo) : bool :=
  (get_zodiac_sign_jp (pi_longitude p) mod n =? k)%Z.

(** ** The same loops on binary64 numbers

    The definitions above read a [float] as a real number.  The window
    scan of [solve_lambda_by_OA] and the cusp sums of the Koch branch only
    add, subtract, halve, multiply, compare and take remainders, so they
    can also be run as Python runs them, on IEEE 754 binary64 numbers
    with their rounding and their NaN.  The module below repeats these
    definitions over the kernel's primitive floats; it is used where the
    answer depends on rounding or on NaN. *)

Module Binary64.

(** [fmod(x, y)] of the C library, which CPython calls for [%]: the
    remainder [x - n * y] with [n] the quotient truncated towards zero.  It
    is exact and has the sign of [x]; it is NaN for a NaN or infinite [x]
    and for a zero or NaN [y]. *)
Definition fmod (x y : float) : float :=
  match Prim2SF x, Prim2SF y with
  | S754_nan, _ | _, S754_nan => nan
  | S754_infinity _, _ => nan
  | _, S754_zero _ => nan
  | S754_zero _, _ => x
  | S754_finite _ _ _, S754_infinity _ => x
  | S754_finite sx mx ex, S754_finite _ my ey =>
      let e := Z.min ex ey in
      let r := ((Z.pos mx * 2 ^ (ex - e)) mod (Z.pos my * 2 ^ (ey - e)))%Z in
      SF2Prim (binary_normalize prec emax (if sx then - r else r)%Z e sx)
  end.

(** [vx % wx] on floats ([float_rem] of CPython): [fmod], moved by [wx]
    when its sign differs from the divisor's, and a zero remainder with
    the sign of the divisor.  Every [%] of the code divides by 360, so the
    [ZeroDivisionError] of a zero divisor has no counterpart here. *)
Definition py_mod (vx wx : float) : float :=
  let mod_ := fmod vx wx in
  if (mod_ =? 0)%float then (if (wx <? 0)%float then neg_zero else zero)
  else if xorb (wx <? 0)%float (mod_ <? 0)%float then (mod_ + wx)%float
  else mod_.

Definition normalize_deg (x : float) : float :=
  let v := py_mod x 360 in
  if (v <? 0)%float then (v + 360)%float else v.

Definition circ_diff (a b : float) : float :=
  (py_mod (a - b + 180) 360 - 180)%float.

(** The [for _ in range(30)] loop of the bisection. *)
Fixpoint bisection (n : nat) (F : float -> option float)
    (lo hi flo fhi : float) : float :=
  match n with
  | O => normalize_deg ((lo + hi) / 2)
  | S n' =>
      let mid := ((lo + hi) / 2)%float in
      match F mid with
      | None => bisection n' F mid hi flo fhi
      | Some fmid =>
          if (abs fmid <? 1e-6)%float then normalize_deg mid
          else if (flo * fmid <=? 0)%float then bisection n' F lo mid flo fmid
          else bisection n' F mid hi fmid fhi
      end
  end.

(** The generator [iter_window], run to its end. *)
Fixpoint iter_window_loop (fuel : nat) (angle end_n step : float)
    : run (list float) :=
  match fuel with
  | O => OutOfFuel
  | S fuel' =>
      let angle := normalize_deg (angle + step) in
      if (abs (circ_diff angle end_n) <=? step * 0.5)%float then Returned [angle]
      else
        let! rest := iter_window_loop fuel' angle end_n step in
        Returned (angle :: rest)
  end.

Definition iter_window (fuel : nat) (start end_ step : float) : run (list float) :=
  let angle := normalize_deg (start + step) in
  let end_n := normalize_deg end_ in
  let! rest := iter_window_loop fuel angle end_n step in
  Returned (angle :: rest).

(** Body of [for lam in iter_window(...)]: a [return] of the function
    ([inl]) or the next [(prev_lam, prev_val)] ([inr]). *)
Definition scan_body (F : float -> option float)
    (prev : option float * option float) (lam : float)
    : float + (option float * option float) :=
  let val := F lam in
  match prev, val with
  | (Some prev_lam, Some prev_val), Some v =>
      if (prev_val =? 0)%float then inl prev_lam
      else if (v =? 0)%float then inl lam
      else if (prev_val * v <? 0)%float
           then inl (bisection 30 F prev_lam lam prev_val v)
      else inr (Some lam, val)
  | _, _ => inr (Some lam, val)
  end.

(** The generator interleaved with its consumer, as Python runs them:
    advance, hand the angle to [scan_body], then test the stop condition. *)
Fixpoint scan_while (fuel : nat) (F : float -> option float) (end_n step : float)
    (prev : option float * option float) (angle : float) : run (option float) :=
  match fuel with
  | O => OutOfFuel
  | S fuel' =>
      let angle := normalize_deg (angle + step) in
      match scan_body F prev angle with
      | inl root => Returned (Some root)
      | inr prev' =>
          if (abs (circ_diff angle end_n) <=? step * 0.5)%float then Returned None
          else scan_while fuel' F end_n step prev' angle
      end
  end.

(** [for lam in iter_window(win_start, win_end, init_step_deg)] of
    [solve_lambda_by_OA], for a given [F]. *)
Definition scan_window (fuel : nat) (F : float -> option float)
    (start end_ step : float) : run (option float) :=
  let angle := normalize_deg (start + step) in
  let end_n := normalize_deg end_ in
  match scan_body F (None, None) angle with
  | inl root => Returned (Some root)
  | inr prev => scan_while fuel F end_n step prev angle
  end.

(** [house_cusps] of the Koch branch. *)
Definition house_cusps (asc_longitude mc_longitude : float) : list float :=
  [ asc_longitude;
    py_mod (asc_longitude + 30) 360;
    py_mod (asc_longitude + 60) 360;
    py_mod (mc_longitude + 180) 360;
    py_mod (asc_longitude + 120) 360;
    py_mod (asc_longitude + 150) 360;
    py_mod (asc_longitude + 180) 360;
    py_mod (asc_longitude + 210) 360;
    py_mod (asc_longitude + 240) 360;
    mc_longitude;
    py_mod (asc_longitude + 300) 360;
    py_mod (asc_longitude + 330) 360 ]%float.

(** The longitude of the Koch cusp numbered [i] (1..12). *)
Definition koch_cusp (asc_longitude mc_longitude : float) (i : nat) : float :=
  nth (i - 1) (house_cusps asc_longitude mc_longitude) nan.

End Binary64.

(** ** Properties of results *)

(** Cusp completeness: numbers 1..12 in order, longitudes in [0,360). *)
Definition complete_cusps (hs : list House) : Prop :=
  map number hs = py_range 1 13 /\
  Forall (fun h => 0 <= longitude h < 360) hs.

(** House [j] is the antipode of house [i]. *)
Definition antipodal (r : Result) (i j : Z) : Prop :=
  exists a b, cusp r i = Some a /\ cusp r j = Some b /\ b = pymod (a + 180) 360.

(** House [j] is the antipode of house [i] up to [tol] degrees, measured
    on the circle. *)
Definition antipodal_within (tol : R) (r : Result) (i j : Z) : Prop :=
  exists a b, cusp r i = Some a /\ cusp r j = Some b /\
              Rabs (circ_diff b (a + 180)) <= tol.

(** A call finishes when it returns a value: no exception, fuel left. *)
Definition finishes {A : Type} (m : run A) : Prop := exists a, m = Returned a.

(** ** Sample inputs *)

(** J2000.0 (TT) with Greenwich apparent sidereal time 0h: at longitude 0
    the RAMC is 0. *)
Definition t_sample : Time := mkTime 0 2451545.

Definition fuel_sample : nat := Z.to_nat 7206.

(** A fuelled computation is stable when more fuel never changes a value
    already returned. *)
Definition stable {A : Type} (f : nat -> run A) : Prop :=
  forall n n' a, f n = Returned a -> (n <= n')%nat -> f n' = Returned a.

(** ** Arithmetic of [%] *)

Lemma pymod_range (x : R) : 0 <= pymod x 360 < 360.
Proof.
  unfold pymod. pose proof (Zfloor_bound (x / 360)) as Hb. lra.
Qed.

Lemma pymod_small (x : R) : 0 <= x < 360 -> pymod x 360 = x.
Proof.
  intros Hx. unfold pymod.
  rewrite (Zfloor_eq 0 (x / 360)); simpl; lra.
Qed.

Lemma pymod_shift (x : R) (k : Z) : pymod (x + 360 * IZR k) 360 = pymod x 360.
Proof.
  unfold pymod.
  replace ((x + 360 * IZR k) / 360) with (x / 360 + IZR k) by (field; lra).
  rewrite Zfloor_addz, plus_IZR. lra.
Qed.

Lemma pymod_decomp (x : R) : exists k : Z, pymod x 360 = x + 360 * IZR k.
Proof.
  exists (- Zfloor (x / 360))%Z. unfold pymod. rewrite opp_IZR. lra.
Qed.

Lemma pymod_add_l (x y : R) : pymod (pymod x 360 + y) 360 = pymod (x + y) 360.
Proof.
  destruct (pymod_decomp x) as [k Hk]. rewrite Hk.
  replace (x + 360 * IZR k + y) with (x + y + 360 * IZR k) by lra.
  apply pymod_shift.
Qed.

Lemma pymod_idem (x : R) : pymod (pymod x 360) 360 = pymod x 360.
Proof. apply pymod_small, pymod_range. Qed.

Lemma normalize_deg_pymod (x : R) : normalize_deg x = pymod x 360.
Proof.
  unfold normalize_deg. cbv zeta.
  destruct (Rlt_dec (pymod x 360) 0) as [Hneg|_]; [|reflexivity].
  pose proof (pymod_range x). lra.
Qed.

Lemma normalize_deg_range (x : R) : 0 <= normalize_deg x < 360.
Proof. rewrite normalize_deg_pymod. apply pymod_range. Qed.

Lemma circ_diff_range (a b : R) : -180 <= circ_diff a b < 180.
Proof.
  unfold circ_diff. pose proof (pymod_range (a - b + 180)). lra.
Qed.

(** C8: the docstring of [circ_diff] promises a value in (-180,180], but at
    a - b = 180 the code returns -180, which lies outside that interval. *)
Theorem circ_diff_at_half_turn :
  circ_diff 180 0 = -180 /\ ~ (-180 < circ_diff 180 0 <= 180).
Proof.
  assert (H : circ_diff 180 0 = -180).
  { unfold circ_diff.
    replace (180 - 0 + 180) with (0 + 360 * IZR 1) by lra.
    rewrite pymod_shift, pymod_small; lra. }
  split; [exact H|]. rewrite H. lra.
Qed.

(** [math.asin] and [math.acos] are called inside their domain [-1,1]:
    the sine of the declination is a product of two sines, and
    [rising_hour_angle] tests its argument first. *)
Lemma declination_sine_in_domain (lam eps : R) : -1 <= sin eps * sin lam <= 1.
Proof.
  pose proof (SIN_bound eps). pose proof (SIN_bound lam). nra.
Qed.

Lemma rising_hour_angle_in_domain (delta_deg phi_deg h0 : R) :
  rising_hour_angle delta_deg phi_deg = Some h0 ->
  -1 <= - tan (radians phi_deg) * tan (radians delta_deg) <= 1.
Proof.
  unfold rising_hour_angle, Rltb. cbv zeta.
  destruct (Rlt_dec _ (-1)); [discriminate|].
  destruct (Rlt_dec 1 _); [discriminate|]. intros _. lra.
Qed.

(** ** Reading results *)

Ltac split_1_12 i H :=
  assert (i = 1 \/ i = 2 \/ i = 3 \/ i = 4 \/ i = 5 \/ i = 6 \/
          i = 7 \/ i = 8 \/ i = 9 \/ i = 10 \/ i = 11 \/ i = 12)%Z
    as H by lia;
  repeat (destruct H as [H|H]); subst i.

Lemma Reqb_true (x y : R) : Reqb x y = true <-> x = y.
Proof. unfold Reqb. destruct (Req_dec_T x y); split; congruence. Qed.

Lemma Reqb_false (x y : R) : Reqb x y = false <-> x <> y.
Proof. unfold Reqb. destruct (Req_dec_T x y); split; congruence. Qed.

Lemma asc_longitude_of_range (ramc obl lat : R) :
  0 <= asc_longitude_of ramc obl lat < 360.
Proof. unfold asc_longitude_of. cbv zeta. apply pymod_range. Qed.

Lemma mc_longitude_of_range (ramc obl : R) :
  0 <= mc_longitude_of ramc obl < 360.
Proof. unfold mc_longitude_of. cbv zeta. apply pymod_range. Qed.

(** Every path of [calculate_houses] that returns goes through the same
    frame; this inversion exposes it. *)
Lemma calculate_houses_inv fuel t latitude longitude system r :
  calculate_houses fuel t latitude longitude system = Returned r ->
  let ramc := ramc_degrees_of t longitude in
  let obl := obliquity_degrees_of t in
  let mcl := mc_longitude_of ramc obl in
  let asc := asc_longitude_of ramc obl latitude in
  asc_denominator_of ramc obl latitude <> 0 /\
  ap_longitude (ascendant r) = asc /\
  ap_longitude (mc r) = mcl /\
  ap_longitude (descendant r) = pymod (asc + 180) 360 /\
  ap_longitude (ic r) = pymod (mcl + 180) 360 /\
  (if String.eqb system "equal" then Returned (equal_houses asc)
   else if String.eqb system "koch" then Returned (koch_houses asc mcl)
   else placidus_houses obl latitude fuel ramc asc mcl) = Returned (houses r).
Proof.
  unfold calculate_houses. cbv zeta.
  destruct (Reqb _ 0) eqn:Hden; [discriminate|].
  apply Reqb_false in Hden.
  match goal with
  | |- context [run_bind ?m _] => destruct m as [hs| |] eqn:Hhs
  end; cbn [run_bind]; try discriminate.
  intros [= <-]. cbn. repeat split; auto.
Qed.

Lemma cusp_equal_houses (asc : R) (i : Z) :
  (1 <= i <= 12)%Z ->
  List.find (fun h => (number h =? i)%Z) (equal_houses asc)
  = Some (mkHouse i (get_zodiac_sign_jp (pymod (asc + IZR (i - 1) * 30) 360))
                  (pymod (asc + IZR (i - 1) * 30) 360)).
Proof.
  intros Hi. split_1_12 i H; reflexivity.
Qed.

(** C3: with [system = "equal"], the cusp of house [i] is
    [(ASC + (i-1)*30) mod 360] for every [i] in 1..12, where ASC is the
    ascendant longitude of the same result. *)
Theorem equal_system_exact fuel t lat lon r (i : Z) :
  calculate_houses fuel t lat lon "equal" = Returned r ->
  (1 <= i <= 12)%Z ->
  cusp r i = Some (pymod (ap_longitude (ascendant r) + IZR (i - 1) * 30) 360).
Proof.
  intros Hr Hi. apply calculate_houses_inv in Hr. cbv zeta in Hr.
  destruct Hr as (_ & Hasc & _ & _ & _ & Hh).
  cbn [String.eqb Ascii.eqb Bool.eqb] in Hh. injection Hh as Hh.
  unfold cusp. rewrite <- Hh, cusp_equal_houses by exact Hi.
  cbn [longitude]. rewrite Hasc. reflexivity.
Qed.

(** ** Termination of the root-finder *)

Lemma finishes_Returned {A : Type} (a : A) : finishes (Returned a).
Proof. exists a. reflexivity. Qed.

Lemma finishes_bind {A B : Type} (m : run A) (k : A -> run B) :
  finishes m -> (forall a, finishes (k a)) -> finishes (run_bind m k).
Proof. intros [a ->] Hk. cbn. apply Hk. Qed.

Lemma normalize_deg_add_l (x y : R) :
  normalize_deg (normalize_deg x + y) = normalize_deg (x + y).
Proof. rewrite !normalize_deg_pymod. apply pymod_add_l. Qed.

(** The lattice [a + k * s], k = 1..N, of a step that divides the circle
    comes within half a step of every angle. *)
Lemma window_hit (s a e : R) (N : Z) :
  0 < s < 360 -> (0 < N)%Z -> IZR N * s = 360 ->
  exists k : Z, (1 <= k <= N)%Z /\
    Rabs (circ_diff (normalize_deg (a + IZR k * s)) e) <= s * 0.5.
Proof.
  intros Hs HN HNs.
  set (d := e - a).
  set (j := Zfloor (d / s + 1 / 2)).
  pose proof (Zfloor_bound (d / s + 1 / 2)) as Hj. fold j in Hj.
  assert (Hjs : - (s / 2) < IZR j * s - d <= s / 2).
  { assert (Hds : d / s * s = d) by (field; lra).
    destruct Hj as [Hj1 Hj2]. split.
    - apply Rmult_lt_compat_r with (r := s) in Hj2; [|lra]. nra.
    - apply Rmult_le_compat_r with (r := s) in Hj1; [|lra]. nra. }
  pose proof (Z.div_mod (j - 1) N ltac:(lia)) as Hdm.
  pose proof (Z.mod_pos_bound (j - 1) N HN) as Hmod.
  set (m := ((j - 1) / N)%Z) in *. set (r := ((j - 1) mod N)%Z) in *.
  clearbody m r. clearbody j.
  exists (r + 1)%Z. split; [lia|].
  assert (Hk : IZR (r + 1) * s = IZR j * s - 360 * IZR m).
  { assert (Hjeq : j = (N * m + r + 1)%Z) by lia.
    rewrite Hjeq, !plus_IZR, mult_IZR, <- HNs. ring. }
  rewrite Hk.
  destruct (pymod_decomp (a + (IZR j * s - 360 * IZR m))) as [p Hp].
  unfold circ_diff. rewrite normalize_deg_pymod, Hp.
  replace (a + (IZR j * s - 360 * IZR m) + 360 * IZR p - e + 180)
    with ((IZR j * s - d + 180) + 360 * IZR (p - m))
    by (rewrite minus_IZR; unfold d; lra).
  rewrite pymod_shift, pymod_small by lra.
  apply Rabs_le. lra.
Qed.

Lemma scan_while_hit F e s (k : nat) :
  forall fuel prev x,
    (1 <= k <= fuel)%nat ->
    Rabs (circ_diff (normalize_deg (x + IZR (Z.of_nat k) * s)) e) <= s * 0.5 ->
    finishes (scan_while fuel F e s prev x).
Proof.
  induction k as [|k IH]; intros fuel prev x Hk Hhit; [lia|].
  destruct fuel as [|fuel]; [lia|]. cbn [scan_while]. cbv zeta.
  destruct (scan_body F prev (normalize_deg (x + s))) as [root|prev'];
    [apply finishes_Returned|].
  unfold Rleb at 1.
  destruct (Rle_dec _ _) as [Hin|Hout]; [apply finishes_Returned|].
  destruct k as [|k].
  - exfalso. apply Hout.
    replace (x + s) with (x + IZR (Z.of_nat 1) * s); [exact Hhit|].
    change (Z.of_nat 1) with 1%Z. lra.
  - apply IH; [lia|].
    rewrite normalize_deg_add_l.
    replace (x + s + IZR (Z.of_nat (S k)) * s)
      with (x + IZR (Z.of_nat (S (S k))) * s); [exact Hhit|].
    rewrite (Nat2Z.inj_succ (S k)), succ_IZR. lra.
Qed.

Lemma scan_while_finishes F e s prev x (N : Z) (fuel : nat) :
  0 < s < 360 -> (0 < N)%Z -> IZR N * s = 360 -> (N <= Z.of_nat fuel)%Z ->
  finishes (scan_while fuel F e s prev x).
Proof.
  intros Hs HN HNs Hfuel.
  destruct (window_hit s x e N Hs HN HNs) as (k & Hk & Hhit).
  apply scan_while_hit with (k := Z.to_nat k); [lia|].
  rewrite Z2Nat.id by lia. exact Hhit.
Qed.

Lemma scan_window_finishes F start end_ s (N : Z) (fuel : nat) :
  0 < s < 360 -> (0 < N)%Z -> IZR N * s = 360 -> (N <= Z.of_nat fuel)%Z ->
  finishes (scan_window fuel F start end_ s).
Proof.
  intros. unfold scan_window. cbv zeta.
  destruct (scan_body _ _ _); [apply finishes_Returned|].
  eapply scan_while_finishes; eauto.
Qed.

Lemma iter_window_loop_hit e s (k : nat) :
  forall fuel x,
    (1 <= k <= fuel)%nat ->
    Rabs (circ_diff (normalize_deg (x + IZR (Z.of_nat k) * s)) e) <= s * 0.5 ->
    exists l, iter_window_loop fuel x e s = Returned l /\
              (1 <= length l <= k)%nat /\
              Rabs (circ_diff (List.last l 0) e) <= s * 0.5.
Proof.
  induction k as [|k IH]; intros fuel x Hk Hhit; [lia|].
  destruct fuel as [|fuel]; [lia|]. cbn [iter_window_loop]. cbv zeta.
  unfold Rleb at 1.
  destruct (Rle_dec _ _) as [Hin|Hout].
  - eexists. split; [reflexivity|]. cbn [length List.last]. split; [lia|exact Hin].
  - destruct k as [|k].
    + exfalso. apply Hout.
      replace (x + s) with (x + IZR (Z.of_nat 1) * s); [exact Hhit|].
      change (Z.of_nat 1) with 1%Z. lra.
    + destruct (IH fuel (normalize_deg (x + s))) as (l & Hl & Hlen & Hlast);
        [lia| |].
      * rewrite normalize_deg_add_l.
        replace (x + s + IZR (Z.of_nat (S k)) * s)
          with (x + IZR (Z.of_nat (S (S k))) * s); [exact Hhit|].
        rewrite (Nat2Z.inj_succ (S k)), succ_IZR. lra.
      * rewrite Hl. cbn [run_bind]. eexists. split; [reflexivity|].
        cbn [length]. split; [lia|].
        destruct l as [|a l]; [cbn in Hlen; lia|exact Hlast].
Qed.

(** [iter_window] stops: it yields at most N + 1 angles, the last of them
    within half a step of the window end. *)
Lemma iter_window_finishes start end_ s (N : Z) (fuel : nat) :
  0 < s < 360 -> (0 < N)%Z -> IZR N * s = 360 -> (N <= Z.of_nat fuel)%Z ->
  exists l, iter_window fuel start end_ s = Returned l /\
            (Z.of_nat (length l) <= N + 1)%Z /\
            Rabs (circ_diff (List.last l 0) (normalize_deg end_)) <= s * 0.5.
Proof.
  intros Hs HN HNs Hfuel. unfold iter_window. cbv zeta.
  destruct (window_hit s (normalize_deg (start + s)) (normalize_deg end_) N Hs HN HNs)
    as (k & Hk & Hhit).
  destruct (iter_window_loop_hit (normalize_deg end_) s (Z.to_nat k) fuel
              (normalize_deg (start + s))) as (l & Hl & Hlen & Hlast).
  - lia.
  - rewrite Z2Nat.id by lia. exact Hhit.
  - rewrite Hl. cbn [run_bind]. eexists. split; [reflexivity|].
    cbn [length]. split; [lia|].
    destruct l as [|a l]; [cbn in Hlen; lia|exact Hlast].
Qed.

(** The interleaved scan is the [for] loop over the angles of
    [iter_window]. *)
Lemma scan_while_as_list F e s :
  forall fuel prev x l,
    iter_window_loop fuel x e s = Returned l ->
    scan_while fuel F e s prev x = Returned (scan_list F prev l).
Proof.
  induction fuel as [|fuel IH]; intros prev x l Hl; [discriminate|].
  cbn [iter_window_loop scan_while] in *. cbv zeta in *.
  destruct (Rleb _ _).
  - injection Hl as <-. cbn [scan_list].
    destruct (scan_body _ _ _); reflexivity.
  - destruct (iter_window_loop fuel _ e s) as [rest| |] eqn:Hrest;
      cbn [run_bind] in Hl; try discriminate.
    injection Hl as <-. cbn [scan_list].
    destruct (scan_body _ _ _) as [root|prev']; [reflexivity|].
    now apply IH.
Qed.

Lemma scan_window_as_list F fuel start end_ s l :
  iter_window fuel start end_ s = Returned l ->
  scan_window fuel F start end_ s = Returned (scan_list F (None, None) l).
Proof.
  unfold iter_window, scan_window. cbv zeta.
  destruct (iter_window_loop _ _ _ _) as [rest| |] eqn:Hrest;
    cbn [run_bind]; try discriminate.
  intros [= <-]. cbn [scan_list].
  destruct (scan_body _ _ _) as [root|prev']; [reflexivity|].
  now apply scan_while_as_list.
Qed.

Lemma sample_while_finishes F_val opts e s (fuel : nat) :
  forall best angle guard,
    (1 <= fuel)%nat ->
    (py_int (360 / s) + 5 + 1 - guard <= Z.of_nat fuel)%Z ->
    finishes (sample_while fuel F_val opts e s best angle guard).
Proof.
  induction fuel as [|fuel IH]; intros best angle guard H1 Hg; [lia|].
  cbn [sample_while]. cbv zeta.
  destruct (_ || _) eqn:Hstop; [apply finishes_Returned|].
  apply orb_false_iff in Hstop. destruct Hstop as [_ Hguard].
  apply Z.ltb_ge in Hguard.
  apply IH; lia.
Qed.

Lemma py_int_7200 : py_int (360 / 0.05) = 7200%Z.
Proof.
  replace (360 / 0.05) with (IZR 7200) by lra.
  unfold py_int. destruct (Rle_dec 0 (IZR 7200)) as [_|Hn]; [apply ZfloorZ|].
  exfalso. apply Hn. lra.
Qed.

Section PlacidusTermination.

Variables (obliquity_degrees latitude : R).
Variable fuel : nat.
Hypothesis enough_fuel : (7206 <= Z.of_nat fuel)%Z.

Lemma solve_lambda_by_OA_finishes n_frac base_ramc sign_factor
    win_start win_end step use_descension :
  step = 0.5 \/ step = 0.1 ->
  finishes (solve_lambda_by_OA obliquity_degrees latitude fuel n_frac base_ramc
              sign_factor win_start win_end step use_descension).
Proof using enough_fuel.
  intros [-> | ->]; unfold solve_lambda_by_OA; cbv zeta.
  - apply scan_window_finishes with (N := 720%Z); try lra; lia.
  - apply scan_window_finishes with (N := 3600%Z); try lra; lia.
Qed.

Lemma solve_with_fallback_finishes n_frac base_ramc win_start win_end
    use_descension opts :
  finishes (solve_with_fallback obliquity_degrees latitude fuel n_frac base_ramc
              win_start win_end use_descension opts 0.05).
Proof using enough_fuel.
  unfold solve_with_fallback. cbv zeta.
  apply finishes_bind.
  - apply sample_while_finishes; [lia|]. rewrite py_int_7200. lia.
  - intros [[[af lam0] s0]|]; [|apply finishes_Returned].
    destruct (F_val _ _ _ _ _ lam0 s0); [|apply finishes_Returned].
    destruct (F_val _ _ _ _ _ _ s0); apply finishes_Returned.
Qed.

Lemma solve_c11_finishes ramc win :
  finishes (solve_c11 obliquity_degrees latitude fuel ramc win).
Proof using enough_fuel.
  apply solve_lambda_by_OA_finishes. now left.
Qed.

Lemma solve_c12_finishes ramc win c11 :
  finishes (solve_c12 obliquity_degrees latitude fuel ramc win c11).
Proof using enough_fuel.
  apply solve_lambda_by_OA_finishes. now left.
Qed.

Lemma solve_c3_finishes ramc win :
  finishes (solve_c3 obliquity_degrees latitude fuel ramc win).
Proof using enough_fuel.
  unfold solve_c3. apply finishes_bind.
  - apply solve_lambda_by_OA_finishes. now right.
  - intros [v|]; [apply finishes_Returned|apply solve_with_fallback_finishes].
Qed.

Lemma solve_c2_finishes ramc win c3 :
  finishes (solve_c2 obliquity_degrees latitude fuel ramc win c3).
Proof using enough_fuel.
  unfold solve_c2. cbv zeta. apply finishes_bind.
  - apply solve_lambda_by_OA_finishes. now right.
  - intros [v|]; [apply finishes_Returned|apply solve_with_fallback_finishes].
Qed.

Lemma placidus_cv_map_finishes ramc asc_longitude mc_longitude :
  finishes (placidus_cv_map obliquity_degrees latitude fuel
              ramc asc_longitude mc_longitude).
Proof using enough_fuel.
  unfold placidus_cv_map. cbv zeta.
  apply finishes_bind; [apply solve_c11_finishes|intros c11].
  apply finishes_bind; [apply solve_c12_finishes|intros c12].
  apply finishes_bind; [apply solve_c3_finishes|intros c3].
  apply finishes_bind; [apply solve_c2_finishes|intros c2].
  apply finishes_Returned.
Qed.

Lemma placidus_houses_finishes ramc asc_longitude mc_longitude :
  finishes (placidus_houses obliquity_degrees latitude fuel
              ramc asc_longitude mc_longitude).
Proof using enough_fuel.
  unfold placidus_houses.
  apply finishes_bind; [apply placidus_cv_map_finishes|intros m].
  apply finishes_Returned.
Qed.

End PlacidusTermination.

(** In exact arithmetic the root-finder terminates.  With fuel 7206 or more
    no loop runs out: for both steps the code uses (0.5 and 0.1) the
    generator [iter_window] comes within half a step of the window end and
    stops after at most 3601 angles, so the scan of [solve_lambda_by_OA]
    returns; the sampling loop of [solve_with_fallback] stops by its guard
    counter; bisection and secant are loops over [range(30)] and
    [range(20)]; and so the whole Placidus computation returns.  The
    argument rests on a lattice of angles that meets the window end
    exactly; on binary64 numbers it does not carry over (next section). *)
Theorem root_finder_terminates (obliquity_degrees latitude : R) (fuel : nat) :
  (7206 <= Z.of_nat fuel)%Z ->
  (forall start end_ step,
      step = 0.5 \/ step = 0.1 ->
      exists l, iter_window fuel start end_ step = Returned l /\
                (Z.of_nat (length l) <= 3601)%Z /\
                Rabs (circ_diff (List.last l 0) (normalize_deg end_)) <= step * 0.5) /\
  (forall n_frac base_ramc sign_factor win_start win_end step use_descension,
      step = 0.5 \/ step = 0.1 ->
      finishes (solve_lambda_by_OA obliquity_degrees latitude fuel n_frac base_ramc
                  sign_factor win_start win_end step use_descension)) /\
  (forall n_frac base_ramc win_start win_end use_descension opts,
      finishes (solve_with_fallback obliquity_degrees latitude fuel n_frac
                  base_ramc win_start win_end use_descension opts 0.05)) /\
  (forall ramc_degrees asc_longitude mc_longitude,
      finishes (placidus_houses obliquity_degrees latitude fuel
                  ramc_degrees asc_longitude mc_longitude)).
Proof.
  intros Hfuel. repeat split.
  - intros start end_ step [-> | ->].
    + destruct (iter_window_finishes start end_ 0.5 720 fuel)
        as (l & Hl & Hlen & Hlast); try lra; try lia.
      exists l. repeat split; [exact Hl|lia|exact Hlast].
    + destruct (iter_window_finishes start end_ 0.1 3600 fuel)
        as (l & Hl & Hlen & Hlast); try lra; try lia.
      exists l. repeat split; [exact Hl|lia|exact Hlast].
  - intros. now apply solve_lambda_by_OA_finishes.
  - intros. now apply solve_with_fallback_finishes.
  - intros. now apply placidus_houses_finishes.
Qed.

Lemma root_finder_terminates_witness :
  (7206 <= Z.of_nat fuel_sample)%Z /\
  (forall ramc_degrees asc_longitude mc_longitude,
      finishes (placidus_houses 23.4 35.6895 fuel_sample
                  ramc_degrees asc_longitude mc_longitude)).
Proof.
  split; [unfold fuel_sample; lia|].
  apply (root_finder_terminates 23.4 35.6895 fuel_sample). unfold fuel_sample. lia.
Defined.

(** ** The window scan on binary64 numbers *)

Lemma float_sub_nan (x : float) : (x - nan)%float = nan.
Proof.
  apply Prim2SF_inj. rewrite sub_spec.
  change (Prim2SF nan) with S754_nan.
  destruct (Prim2SF x) as [s|s| |s m e]; reflexivity.
Qed.

Lemma float_nan_leb (y : float) : (nan <=? y)%float = false.
Proof.
  rewrite leb_spec. change (Prim2SF nan) with S754_nan. reflexivity.
Qed.

(** Python's [%] can return the divisor itself, and a few more values of
    [float_rem], as CPython computes them. *)
Lemma py_mod_examples :
  Binary64.py_mod (-1e-15) 360 = 360%float /\
  Binary64.py_mod 540 360 = 180%float /\
  Binary64.py_mod (-0.5) 360 = 359.5%float /\
  Binary64.py_mod 725.5 360 = 5.5%float /\
  Binary64.py_mod 359.99999999999994 360 = 359.99999999999994%float /\
  Binary64.py_mod nan 360 = nan /\
  Binary64.py_mod infinity 360 = nan.
Proof. repeat split; reflexivity. Qed.

Lemma circ_diff_nan (x : float) : Binary64.circ_diff x nan = nan.
Proof.
  unfold Binary64.circ_diff. rewrite float_sub_nan. reflexivity.
Qed.

(** With a NaN window end the stop test of [iter_window] is false at every
    angle and for every step. *)
Lemma stop_test_nan (x step : float) :
  (abs (Binary64.circ_diff x nan) <=? step * 0.5)%float = false.
Proof.
  rewrite circ_diff_nan. change (abs nan) with nan. apply float_nan_leb.
Qed.

Lemma iter_window_loop_nan fuel angle step :
  Binary64.iter_window_loop fuel angle nan step = OutOfFuel.
Proof.
  revert angle. induction fuel as [|fuel IH]; intros angle; [reflexivity|].
  cbn [Binary64.iter_window_loop]. cbv zeta.
  rewrite stop_test_nan, IH. reflexivity.
Qed.

Lemma scan_while_nan fuel F step prev angle :
  Binary64.scan_while fuel F nan step prev angle <> Returned None.
Proof.
  revert prev angle. induction fuel as [|fuel IH]; intros prev angle; [discriminate|].
  cbn [Binary64.scan_while]. cbv zeta.
  destruct (Binary64.scan_body F prev _) as [root|prev']; [discriminate|].
  rewrite stop_test_nan. apply IH.
Qed.

(** A value of [F] that is NaN never makes the scan return: the tests
    [== 0.0] and [< 0] are false on NaN. *)
Lemma scan_body_nan F prev_lam prev_val lam :
  (F lam = None \/ F lam = Some nan) ->
  (prev_val = None \/ prev_val = Some nan) ->
  Binary64.scan_body F (prev_lam, prev_val) lam = inr (Some lam, F lam).
Proof.
  intros [Hf|Hf] [Hp|Hp]; unfold Binary64.scan_body; rewrite Hf, Hp;
    destruct prev_lam; reflexivity.
Qed.

Lemma scan_while_nan_values fuel F step prev_lam prev_val angle :
  (forall lam, F lam = None \/ F lam = Some nan) ->
  (prev_val = None \/ prev_val = Some nan) ->
  Binary64.scan_while fuel F nan step (prev_lam, prev_val) angle = OutOfFuel.
Proof.
  intros HF. revert prev_lam prev_val angle.
  induction fuel as [|fuel IH]; intros prev_lam prev_val angle Hp; [reflexivity|].
  cbn [Binary64.scan_while]. cbv zeta.
  rewrite (scan_body_nan F prev_lam prev_val _ (HF _) Hp), stop_test_nan.
  apply IH, HF.
Qed.

(** C9: the root-finder does not terminate on every input.  When the end
    of the window is NaN (the ascendant is NaN as soon as the latitude or
    the longitude is), the stop test of [iter_window],
    [abs(circ_diff(angle, end_n)) <= step * 0.5], is false at every angle,
    so the [while True] of the generator never breaks, whatever the start
    and the step.  The scan of [solve_lambda_by_OA] over such a window can
    then end only by returning a root, never by reporting that there is
    none; and when [F] is NaN or undefined at every angle, as it is for a
    NaN latitude or longitude, it finds no root either and runs forever:
    no amount of fuel is enough. *)
Theorem window_scan_never_ends_on_a_nan_window_end (fuel : nat)
    (F : float -> option float) (start step : float) :
  Binary64.iter_window fuel start nan step = OutOfFuel /\
  Binary64.scan_window fuel F start nan step <> Returned None /\
  ((forall lam, F lam = None \/ F lam = Some nan) ->
   Binary64.scan_window fuel F start nan step = OutOfFuel).
Proof.
  split; [|split].
  - unfold Binary64.iter_window. cbv zeta.
    change (Binary64.normalize_deg nan) with nan.
    rewrite iter_window_loop_nan. reflexivity.
  - unfold Binary64.scan_window. cbv zeta.
    change (Binary64.normalize_deg nan) with nan.
    destruct (Binary64.scan_body F (None, None) _) as [root|prev];
      [discriminate|apply scan_while_nan].
  - intros HF. unfold Binary64.scan_window. cbv zeta.
    change (Binary64.normalize_deg nan) with nan.
    rewrite (scan_body_nan F None None _ (HF _) (or_introl eq_refl)).
    apply scan_while_nan_values; [exact HF|apply HF].
Qed.

Lemma window_scan_never_ends_on_a_nan_window_end_witness :
  Binary64.iter_window 1000 31.8 nan 0.5 = OutOfFuel /\
  Binary64.scan_window 1000 (fun _ => Some nan) 31.8 nan 0.5 = OutOfFuel.
Proof.
  destruct (window_scan_never_ends_on_a_nan_window_end
              1000 (fun _ => Some nan) 31.8 0.5) as (H1 & _ & H3).
  split; [exact H1|]. apply H3. intros lam. right. reflexivity.
Defined.

(** In binary64 the step-0.1 lattice started at 10.1 passes 0.05000000000001
    away from the window end 10.25, just outside the half step: the
    generator goes once around the circle and stops only on its second
    pass, after 3602 angles. *)
Lemma iter_window_misses_its_end_once :
  match Binary64.iter_window 4000 10 10.25 0.1 with
  | Returned l => length l = 3602%nat /\ nth 1 l nan = 10.199999999999999%float
  | _ => False
  end /\
  (abs (Binary64.circ_diff 10.199999999999999 10.25) <=? 0.1 * 0.5)%float = false.
Proof. split; [vm_compute; split; reflexivity|reflexivity]. Qed.

(** ** The fuel does not influence a returned value *)

Lemma stable_const {A : Type} (m : run A) : stable (fun _ => m).
Proof. intros n n' a H _. exact H. Qed.

Lemma stable_bind {A B : Type} (f : nat -> run A) (g : A -> nat -> run B) :
  stable f -> (forall a, stable (g a)) ->
  stable (fun n => run_bind (f n) (fun a => g a n)).
Proof.
  intros Hf Hg n n' b H Hle.
  destruct (f n) as [a| |] eqn:Hfn; cbn in H; try discriminate.
  rewrite (Hf n n' a Hfn Hle). cbn. exact (Hg a n n' b H Hle).
Qed.

Lemma scan_while_stable F e s prev x :
  stable (fun fuel => scan_while fuel F e s prev x).
Proof.
  intros n. revert prev x.
  induction n as [|n IH]; intros prev x n' v H Hle; [discriminate|].
  destruct n' as [|n']; [lia|]. cbn [scan_while] in *. cbv zeta in *.
  destruct (scan_body _ _ _); [exact H|].
  destruct (Rleb _ _); [exact H|].
  apply IH; [exact H|lia].
Qed.

Lemma sample_while_stable F_val opts e s best angle guard :
  stable (fun fuel => sample_while fuel F_val opts e s best angle guard).
Proof.
  intros n. revert best angle guard.
  induction n as [|n IH]; intros best angle guard n' v H Hle; [discriminate|].
  destruct n' as [|n']; [lia|]. cbn [sample_while] in *. cbv zeta in *.
  destruct (_ || _); [exact H|].
  apply IH; [exact H|lia].
Qed.

Lemma solve_lambda_by_OA_stable obl lat n b sg ws we st ud :
  stable (fun fuel => solve_lambda_by_OA obl lat fuel n b sg ws we st ud).
Proof.
  unfold solve_lambda_by_OA, scan_window. cbv zeta.
  destruct (scan_body _ _ _); [apply stable_const|apply scan_while_stable].
Qed.

Lemma solve_with_fallback_stable obl lat n b ws we ud opts st :
  stable (fun fuel => solve_with_fallback obl lat fuel n b ws we ud opts st).
Proof.
  unfold solve_with_fallback. cbv zeta.
  apply (stable_bind
           (fun fuel => sample_while fuel _ opts _ st None _ 0%Z)
           (fun best _ => match best with
                          | Some (_, lam0, s0) => _
                          | None => Returned None
                          end)).
  - apply sample_while_stable.
  - intros best. apply stable_const.
Qed.

Lemma solve_c3_stable obl lat ramc win :
  stable (fun fuel => solve_c3 obl lat fuel ramc win).
Proof.
  unfold solve_c3.
  apply (stable_bind
           (fun fuel => solve_lambda_by_OA obl lat fuel _ _ _ _ _ _ _)
           (fun c3 fuel => match c3 with
                           | Some _ => Returned c3
                           | None => solve_with_fallback obl lat fuel _ _ _ _ _ _ _
                           end)).
  - apply solve_lambda_by_OA_stable.
  - intros [v|]; [apply stable_const|apply solve_with_fallback_stable].
Qed.

Lemma solve_c2_stable obl lat ramc win c3 :
  stable (fun fuel => solve_c2 obl lat fuel ramc win c3).
Proof.
  unfold solve_c2. cbv zeta.
  apply (stable_bind
           (fun fuel => solve_lambda_by_OA obl lat fuel _ _ _ _ _ _ _)
           (fun c2 fuel => match c2 with
                           | Some _ => Returned c2
                           | None => solve_with_fallback obl lat fuel _ _ _ _ _ _ _
                           end)).
  - apply solve_lambda_by_OA_stable.
  - intros [v|]; [apply stable_const|apply solve_with_fallback_stable].
Qed.

Lemma placidus_cv_map_stable obl lat ramc asc_longitude mc_longitude :
  stable (fun fuel => placidus_cv_map obl lat fuel ramc asc_longitude mc_longitude).
Proof.
  unfold placidus_cv_map. cbv zeta.
  apply (stable_bind (fun fuel => solve_c11 obl lat fuel _ _)
           (fun c11 fuel => run_bind (solve_c12 obl lat fuel _ _ c11) _)).
  { apply solve_lambda_by_OA_stable. }
  intros c11.
  apply (stable_bind (fun fuel => solve_c12 obl lat fuel _ _ c11)
           (fun c12 fuel => run_bind (solve_c3 obl lat fuel _ _) _)).
  { apply solve_lambda_by_OA_stable. }
  intros c12.
  apply (stable_bind (fun fuel => solve_c3 obl lat fuel _ _)
           (fun c3 fuel => run_bind (solve_c2 obl lat fuel _ _ c3) _)).
  { apply solve_c3_stable. }
  intros c3.
  apply (stable_bind (fun fuel => solve_c2 obl lat fuel _ _ c3)
           (fun c2 _ => Returned _)).
  { apply solve_c2_stable. }
  intros c2. apply stable_const.
Qed.

Lemma placidus_houses_stable obl lat ramc asc_longitude mc_longitude :
  stable (fun fuel => placidus_houses obl lat fuel ramc asc_longitude mc_longitude).
Proof.
  unfold placidus_houses.
  apply (stable_bind
           (fun fuel => placidus_cv_map obl lat fuel ramc asc_longitude mc_longitude)
           (fun m _ => Returned _)).
  - apply placidus_cv_map_stable.
  - intros m. apply stable_const.
Qed.

Lemma calculate_houses_stable t lat lon system :
  stable (fun fuel => calculate_houses fuel t lat lon system).
Proof.
  unfold calculate_houses. cbv zeta.
  destruct (Reqb _ 0); [apply stable_const|].
  destruct (String.eqb system "equal"); [apply stable_const|].
  destruct (String.eqb system "koch"); [apply stable_const|].
  apply (stable_bind (fun fuel => placidus_houses _ lat fuel _ _ _)
           (fun hs _ => Returned _)).
  - apply placidus_houses_stable.
  - intros hs. apply stable_const.
Qed.

(** Two runs that return, with whatever fuel, return the same result. *)
Lemma calculate_houses_deterministic fuel fuel' t lat lon system r r' :
  calculate_houses fuel t lat lon system = Returned r ->
  calculate_houses fuel' t lat lon system = Returned r' ->
  r = r'.
Proof.
  intros H H'.
  pose proof (calculate_houses_stable t lat lon system fuel (Nat.max fuel fuel') r H
                ltac:(lia)) as E.
  pose proof (calculate_houses_stable t lat lon system fuel' (Nat.max fuel fuel') r' H'
                ltac:(lia)) as E'.
  cbv beta in E, E'. rewrite E in E'. now injection E'.
Qed.

(** ** The Placidus cusp map *)

Lemma placidus_cv_map_inv obl lat fuel ramc asc_longitude mc_longitude m :
  placidus_cv_map obl lat fuel ramc asc_longitude mc_longitude = Returned m ->
  let win_mc_asc := win_ccw (normalize_deg mc_longitude) (normalize_deg asc_longitude) in
  let win_asc_ic :=
    win_ccw (normalize_deg asc_longitude)
            (normalize_deg (normalize_deg mc_longitude + 180)) in
  exists c11 c12 c3 c2,
    solve_c11 obl lat fuel ramc win_mc_asc = Returned c11 /\
    solve_c12 obl lat fuel ramc win_mc_asc c11 = Returned c12 /\
    solve_c3 obl lat fuel ramc win_asc_ic = Returned c3 /\
    solve_c2 obl lat fuel ramc win_asc_ic c3 = Returned c2 /\
    cv_get m 1 = Some (normalize_deg asc_longitude) /\
    cv_get m 2 = c2 /\
    cv_get m 3 = c3 /\
    cv_get m 4 = Some (normalize_deg (mc_longitude + 180)) /\
    cv_get m 5 = option_map (fun v => normalize_deg (v + 180)) c11 /\
    cv_get m 6 = option_map (fun v => normalize_deg (v + 180)) c12 /\
    cv_get m 7 = Some (normalize_deg (asc_longitude + 180)) /\
    cv_get m 8 = option_map (fun v => normalize_deg (v + 180)) c2 /\
    cv_get m 9 = option_map (fun v => normalize_deg (v + 180)) c3 /\
    cv_get m 10 = Some (normalize_deg mc_longitude) /\
    cv_get m 11 = c11 /\
    cv_get m 12 = c12.
Proof.
  unfold placidus_cv_map. cbv zeta.
  destruct (solve_c11 _ _ _ _ _) as [c11| |] eqn:H11; cbn [run_bind]; try discriminate.
  destruct (solve_c12 _ _ _ _ _ _) as [c12| |] eqn:H12; cbn [run_bind]; try discriminate.
  destruct (solve_c3 _ _ _ _ _) as [c3| |] eqn:H3; cbn [run_bind]; try discriminate.
  destruct (solve_c2 _ _ _ _ _ _) as [c2| |] eqn:H2; cbn [run_bind]; try discriminate.
  intros [= <-]. exists c11, c12, c3, c2.
  do 4 (split; [first [assumption | reflexivity]|]).
  destruct c11, c12, c3, c2; repeat split; reflexivity.
Qed.

Lemma equal_fallback_nth (asc_longitude : R) (i : Z) :
  (1 <= i <= 12)%Z ->
  nth (Z.to_nat ((i - 1) mod 12)) (equal_fallback asc_longitude) 0
  = normalize_deg (asc_longitude + IZR (i - 1) * 30).
Proof.
  intros Hi. split_1_12 i H; reflexivity.
Qed.

Lemma number_to_long_range m asc_longitude (i : Z) :
  (1 <= i <= 12)%Z -> 0 <= number_to_long m asc_longitude i < 360.
Proof.
  intros Hi. unfold number_to_long.
  destruct (cv_get m i) as [v|].
  - apply normalize_deg_range.
  - rewrite equal_fallback_nth by exact Hi. apply normalize_deg_range.
Qed.

Lemma number_to_long_missing m asc_longitude (i : Z) :
  (1 <= i <= 12)%Z -> cv_get m i = None ->
  number_to_long m asc_longitude i = pymod (asc_longitude + IZR (i - 1) * 30) 360.
Proof.
  intros Hi Hm. unfold number_to_long. rewrite Hm.
  rewrite equal_fallback_nth by exact Hi. apply normalize_deg_pymod.
Qed.

(** A cusp and its reflection stay antipodal through the final
    normalisation, whether the source cusp was solved or is missing. *)
Lemma number_to_long_reflected m asc_longitude (src dst : Z) (c : option R) :
  (1 <= src <= 12)%Z -> (1 <= dst <= 12)%Z ->
  (dst = src + 6 \/ dst = src - 6)%Z ->
  cv_get m src = c ->
  cv_get m dst = option_map (fun v => normalize_deg (v + 180)) c ->
  number_to_long m asc_longitude dst
  = pymod (number_to_long m asc_longitude src + 180) 360.
Proof.
  intros Hs Hd Hsd Hsrc Hdst. unfold number_to_long.
  rewrite Hsrc, Hdst. destruct c as [v|]; cbn [option_map].
  - rewrite !normalize_deg_pymod, pymod_idem, pymod_add_l. reflexivity.
  - rewrite !equal_fallback_nth by assumption.
    rewrite !normalize_deg_pymod, pymod_add_l.
    destruct Hsd as [-> | ->].
    + f_equal. replace (src + 6 - 1)%Z with (src - 1 + 6)%Z by lia.
      rewrite plus_IZR. generalize (IZR (src - 1)). intros x. lra.
    + replace (asc_longitude + IZR (src - 6 - 1) * 30)
        with (asc_longitude + IZR (src - 1) * 30 + 180 + 360 * IZR (-1)).
      * apply pymod_shift.
      * replace (src - 6 - 1)%Z with (src - 1 - 6)%Z by lia.
        rewrite (minus_IZR (src - 1) 6). generalize (IZR (src - 1)). intros x. lra.
Qed.

Lemma placidus_houses_inv obl lat fuel ramc asc_longitude mc_longitude hs :
  placidus_houses obl lat fuel ramc asc_longitude mc_longitude = Returned hs ->
  exists m,
    placidus_cv_map obl lat fuel ramc asc_longitude mc_longitude = Returned m /\
    hs = map (fun i =>
                let lon := number_to_long m asc_longitude i in
                mkHouse i (get_zodiac_sign_jp lon) lon)
             (py_range 1 13).
Proof.
  unfold placidus_houses.
  destruct (placidus_cv_map _ _ _ _ _ _) as [m| |]; cbn [run_bind]; try discriminate.
  intros [= <-]. exists m. split; reflexivity.
Qed.

Lemma find_placidus_house m asc_longitude (i : Z) :
  (1 <= i <= 12)%Z ->
  List.find (fun h => (number h =? i)%Z)
    (map (fun i =>
            let lon := number_to_long m asc_longitude i in
            mkHouse i (get_zodiac_sign_jp lon) lon)
         (py_range 1 13))
  = Some (mkHouse i (get_zodiac_sign_jp (number_to_long m asc_longitude i))
                  (number_to_long m asc_longitude i)).
Proof.
  intros Hi. split_1_12 i H; reflexivity.
Qed.

(** The Placidus branch, read back from a returned result. *)
Lemma calculate_houses_placidus_inv fuel t lat lon system r :
  system <> "equal"%string -> system <> "koch"%string ->
  calculate_houses fuel t lat lon system = Returned r ->
  let ramc := ramc_degrees_of t lon in
  let obl := obliquity_degrees_of t in
  let asc := ap_longitude (ascendant r) in
  exists m,
    placidus_cv_map obl lat fuel ramc asc (mc_longitude_of ramc obl) = Returned m /\
    asc = asc_longitude_of ramc obl lat /\
    forall i, (1 <= i <= 12)%Z -> cusp r i = Some (number_to_long m asc i).
Proof.
  intros He Hk Hr. apply calculate_houses_inv in Hr. cbv zeta in Hr |- *.
  destruct Hr as (_ & Hasc & _ & _ & _ & Hh).
  apply String.eqb_neq in He, Hk. rewrite He, Hk in Hh.
  apply placidus_houses_inv in Hh. destruct Hh as (m & Hm & Hhs).
  rewrite Hasc. exists m. split; [exact Hm|]. split; [reflexivity|].
  intros i Hi. unfold cusp. rewrite Hhs, find_placidus_house by exact Hi.
  reflexivity.
Qed.

(** ** Shape of the returned houses *)

Lemma py_range_0_12 : py_range 0 12 = [0; 1; 2; 3; 4; 5; 6; 7; 8; 9; 10; 11]%Z.
Proof. reflexivity. Qed.

Lemma py_range_1_13 : py_range 1 13 = [1; 2; 3; 4; 5; 6; 7; 8; 9; 10; 11; 12]%Z.
Proof. reflexivity. Qed.

Lemma equal_houses_complete asc_longitude :
  complete_cusps (equal_houses asc_longitude).
Proof.
  unfold complete_cusps, equal_houses. rewrite py_range_0_12, py_range_1_13.
  cbn [map]. split; [reflexivity|].
  repeat (apply List.Forall_cons; [cbn [longitude]; apply pymod_range|]).
  apply List.Forall_nil.
Qed.

Lemma koch_houses_complete asc_longitude mc_longitude :
  0 <= asc_longitude < 360 -> 0 <= mc_longitude < 360 ->
  complete_cusps (koch_houses asc_longitude mc_longitude).
Proof.
  intros Ha Hm. unfold complete_cusps, koch_houses. rewrite py_range_1_13.
  cbn [map enumerate]. split; [reflexivity|].
  repeat (apply List.Forall_cons;
          [cbn [longitude]; first [apply pymod_range | assumption]|]).
  apply List.Forall_nil.
Qed.

Lemma placidus_houses_complete obl lat fuel ramc asc_longitude mc_longitude hs :
  placidus_houses obl lat fuel ramc asc_longitude mc_longitude = Returned hs ->
  complete_cusps hs.
Proof.
  intros H. apply placidus_houses_inv in H. destruct H as (m & _ & ->).
  unfold complete_cusps. rewrite py_range_1_13. cbn [map].
  split; [reflexivity|].
  repeat (apply List.Forall_cons;
          [cbn [longitude]; apply number_to_long_range; lia|]).
  apply List.Forall_nil.
Qed.

(** Whenever [calculate_houses] returns, in any of the three branches, the
    houses are numbered 1..12 in order and every longitude is in [0,360). *)
Lemma calculate_houses_complete fuel t lat lon system r :
  calculate_houses fuel t lat lon system = Returned r ->
  complete_cusps (houses r).
Proof.
  intros Hr. apply calculate_houses_inv in Hr. cbv zeta in Hr.
  destruct Hr as (_ & _ & _ & _ & _ & Hh).
  destruct (String.eqb system "equal").
  - injection Hh as <-. apply equal_houses_complete.
  - destruct (String.eqb system "koch").
    + injection Hh as <-. apply koch_houses_complete.
      * apply asc_longitude_of_range.
      * apply mc_longitude_of_range.
    + eapply placidus_houses_complete; eassumption.
Qed.

(** ** Exceptions *)










Lemma calculate_houses_finishes fuel t lat lon system :
  (7206 <= Z.of_nat fuel)%Z ->
  asc_denominator_of (ramc_degrees_of t lon) (obliquity_degrees_of t) lat <> 0 ->
  finishes (calculate_houses fuel t lat lon system).
Proof.
  intros Hfuel Hden. unfold calculate_houses. cbv zeta.
  apply Reqb_false in Hden. rewrite Hden.
  apply finishes_bind; [|intros hs; apply finishes_Returned].
  destruct (String.eqb system "equal"); [apply finishes_Returned|].
  destruct (String.eqb system "koch"); [apply finishes_Returned|].
  now apply placidus_houses_finishes.
Qed.

(** ** The angle solver at RAMC = 0 *)

Lemma ramc_degrees_of_gast0 (jd : R) : ramc_degrees_of (mkTime 0 jd) 0 = 0.
Proof.
  unfold ramc_degrees_of. cbn [gast]. cbv zeta.
  replace ((0 + 0 / 15) * 15) with 0 by lra.
  apply pymod_small. lra.
Qed.

Lemma radians_0 : radians 0 = 0.
Proof. unfold radians. lra. Qed.

Lemma asc_denominator_ramc0 (obl lat : R) :
  asc_denominator_of 0 obl lat = tan (radians lat) * sin (radians obl).
Proof.
  unfold asc_denominator_of. cbv zeta. rewrite radians_0, sin_0. lra.
Qed.

Lemma obliquity_sample :
  obliquity_degrees_of t_sample = 23 + 26 / 60 + 21.448 / 3600.
Proof.
  unfold obliquity_degrees_of, t_sample. cbn [tt]. cbv zeta.
  replace ((2451545 - 2451545) / 36525) with 0 by lra.
  unfold pow. lra.
Qed.

Lemma sin_obliquity_sample_pos : 0 < sin (radians (obliquity_degrees_of t_sample)).
Proof.
  rewrite obliquity_sample. pose proof PI_RGT_0 as Hpi.
  apply sin_gt_0; unfold radians; lra.
Qed.

(** On the equator with RAMC = 0 the denominator of the ascendant vanishes. *)
Lemma asc_denominator_equator (jd : R) :
  asc_denominator_of (ramc_degrees_of (mkTime 0 jd) 0)
                     (obliquity_degrees_of (mkTime 0 jd)) 0 = 0.
Proof.
  rewrite ramc_degrees_of_gast0, asc_denominator_ramc0, radians_0, tan_0. lra.
Qed.

Lemma asc_denominator_sample_45 :
  asc_denominator_of (ramc_degrees_of t_sample 0) (obliquity_degrees_of t_sample) 45
  <> 0.
Proof.
  unfold t_sample at 1. rewrite ramc_degrees_of_gast0, asc_denominator_ramc0.
  replace (radians 45) with (PI / 4) by (unfold radians; lra).
  rewrite tan_PI4. pose proof sin_obliquity_sample_pos. lra.
Qed.



Lemma fuel_sample_enough : (7206 <= Z.of_nat fuel_sample)%Z.
Proof. unfold fuel_sample. lia. Qed.


(** ** Claims about [calculate_houses] *)

(** C1: in the Placidus branch the returned cusps 5, 6, 8, 9 are the
    antipodes of cusps 11, 12, 2, 3: [cusp(5) = (cusp(11) + 180) mod 360]
    and likewise for the three other pairs, also when the solved cusp is
    missing and both houses of the pair take their Equal-house value. *)
Theorem placidus_antipodal_symmetry fuel t lat lon system r :
  system <> "equal"%string -> system <> "koch"%string ->
  calculate_houses fuel t lat lon system = Returned r ->
  antipodal r 11 5 /\ antipodal r 12 6 /\ antipodal r 2 8 /\ antipodal r 3 9.
Proof.
  intros He Hk Hr.
  destruct (calculate_houses_placidus_inv _ _ _ _ _ _ He Hk Hr) as (m & Hm & _ & Hc).
  apply placidus_cv_map_inv in Hm. cbv zeta in Hm.
  destruct Hm as (c11 & c12 & c3 & c2 & _ & _ & _ & _ &
                  _ & H2 & H3 & _ & H5 & H6 & _ & H8 & H9 & _ & H11 & H12).
  unfold antipodal.
  repeat split.
  - exists (number_to_long m (ap_longitude (ascendant r)) 11),
           (number_to_long m (ap_longitude (ascendant r)) 5).
    rewrite !Hc by lia. repeat split.
    apply number_to_long_reflected with (c := c11); auto; lia.
  - exists (number_to_long m (ap_longitude (ascendant r)) 12),
           (number_to_long m (ap_longitude (ascendant r)) 6).
    rewrite !Hc by lia. repeat split.
    apply number_to_long_reflected with (c := c12); auto; lia.
  - exists (number_to_long m (ap_longitude (ascendant r)) 2),
           (number_to_long m (ap_longitude (ascendant r)) 8).
    rewrite !Hc by lia. repeat split.
    apply number_to_long_reflected with (c := c2); auto; lia.
  - exists (number_to_long m (ap_longitude (ascendant r)) 3),
           (number_to_long m (ap_longitude (ascendant r)) 9).
    rewrite !Hc by lia. repeat split.
    apply number_to_long_reflected with (c := c3); auto; lia.
Qed.

Lemma placidus_antipodal_symmetry_witness :
  exists r,
    calculate_houses fuel_sample t_sample 45 0 "placidus" = Returned r /\
    antipodal r 11 5 /\ antipodal r 12 6 /\ antipodal r 2 8 /\ antipodal r 3 9.
Proof.
  destruct (calculate_houses_finishes fuel_sample t_sample 45 0 "placidus"
              fuel_sample_enough asc_denominator_sample_45) as [r Hr].
  exists r. split; [exact Hr|].
  apply (placidus_antipodal_symmetry fuel_sample t_sample 45 0 "placidus" r);
    [discriminate|discriminate|exact Hr].
Defined.

(** C2: on the equator with RAMC = 0 (sidereal time 0h at longitude 0) the
    quotient [asc_tan = asc_numerator / asc_denominator], computed for a debug
    print, divides by zero: the call raises instead of returning 12 cusps, in
    each of the three house systems. *)
Theorem calculate_houses_raises_on_equator (fuel : nat) (jd : R) (system : string) :
  calculate_houses fuel (mkTime 0 jd) 0 0 system = Raised ZeroDivisionError.
Proof.
  unfold calculate_houses. cbv zeta.
  rewrite asc_denominator_equator.
  assert (H : Reqb 0 0 = true) by (apply Reqb_true; reflexivity).
  rewrite H. reflexivity.
Qed.

(** C4: in the Placidus branch every house has a longitude, and a house
    whose cusp the solver left without a value ([cv_map.get(i)] is [None])
    takes the Equal-house value [(ASC + (i-1)*30) mod 360]. *)
Theorem placidus_missing_cusp_is_equal fuel t lat lon system r m (i : Z) :
  system <> "equal"%string -> system <> "koch"%string ->
  calculate_houses fuel t lat lon system = Returned r ->
  placidus_cv_map (obliquity_degrees_of t) lat fuel (ramc_degrees_of t lon)
    (ap_longitude (ascendant r))
    (mc_longitude_of (ramc_degrees_of t lon) (obliquity_degrees_of t)) = Returned m ->
  (1 <= i <= 12)%Z ->
  (exists v, cusp r i = Some v) /\
  (cv_get m i = None ->
   cusp r i = Some (pymod (ap_longitude (ascendant r) + IZR (i - 1) * 30) 360)).
Proof.
  intros He Hk Hr Hm Hi.
  destruct (calculate_houses_placidus_inv _ _ _ _ _ _ He Hk Hr) as (m' & Hm' & _ & Hc).
  cbv zeta in Hm'. rewrite Hm in Hm'. injection Hm' as <-.
  rewrite (Hc i Hi). split; [eexists; reflexivity|].
  intros Hnone. f_equal. now apply number_to_long_missing.
Qed.

Lemma placidus_missing_cusp_is_equal_witness :
  exists r m,
    calculate_houses fuel_sample t_sample 45 0 "placidus" = Returned r /\
    placidus_cv_map (obliquity_degrees_of t_sample) 45 fuel_sample
      (ramc_degrees_of t_sample 0) (ap_longitude (ascendant r))
      (mc_longitude_of (ramc_degrees_of t_sample 0) (obliquity_degrees_of t_sample))
    = Returned m /\
    (exists v, cusp r 11 = Some v) /\
    (cv_get m 11 = None ->
     cusp r 11 = Some (pymod (ap_longitude (ascendant r) + IZR (11 - 1) * 30) 360)).
Proof.
  destruct (calculate_houses_finishes fuel_sample t_sample 45 0 "placidus"
              fuel_sample_enough asc_denominator_sample_45) as [r Hr].
  destruct (placidus_cv_map_finishes (obliquity_degrees_of t_sample) 45 fuel_sample
              fuel_sample_enough (ramc_degrees_of t_sample 0)
              (ap_longitude (ascendant r))
              (mc_longitude_of (ramc_degrees_of t_sample 0)
                 (obliquity_degrees_of t_sample))) as [m Hm].
  exists r, m. split; [exact Hr|]. split; [exact Hm|].
  apply (placidus_missing_cusp_is_equal fuel_sample t_sample 45 0 "placidus" r m 11);
    [discriminate|discriminate|exact Hr|exact Hm|lia].
Defined.

(** C5: cusps 11 and 12 are taken from the window scan alone.  The entry of
    [cv_map] for 11 (and for 12) is the result of [solve_lambda_by_OA]
    itself, so a scan that finds no sign change leaves the cusp missing
    without any call of [solve_with_fallback]; for cusps 3 and 2 a scan
    without result is followed by [solve_with_fallback] (step 0.05, signs
    +1 and -1), whose result becomes the entry. *)
Theorem cusps_11_12_have_no_dense_fallback obl lat fuel ramc asc_longitude mc_longitude m :
  placidus_cv_map obl lat fuel ramc asc_longitude mc_longitude = Returned m ->
  let win_mc_asc := win_ccw (normalize_deg mc_longitude) (normalize_deg asc_longitude) in
  let win_asc_ic :=
    win_ccw (normalize_deg asc_longitude)
            (normalize_deg (normalize_deg mc_longitude + 180)) in
  let win_end_2 := match cv_get m 3 with Some v => v | None => snd win_asc_ic end in
  (exists c11 c12,
     solve_lambda_by_OA obl lat fuel (2 / 3) ramc 1
       (fst win_mc_asc) (snd win_mc_asc) 0.5 false = Returned c11 /\
     cv_get m 11 = c11 /\
     solve_lambda_by_OA obl lat fuel (1 / 3) ramc 1
       (match c11 with Some v => v | None => fst win_mc_asc end)
       (snd win_mc_asc) 0.5 false = Returned c12 /\
     cv_get m 12 = c12) /\
  (exists s3 s2,
     solve_lambda_by_OA obl lat fuel (2 / 3) (ramc + 180) 1
       (fst win_asc_ic) (snd win_asc_ic) 0.1 true = Returned s3 /\
     match s3 with
     | Some _ => cv_get m 3 = s3
     | None => solve_with_fallback obl lat fuel (2 / 3) (ramc + 180)
                 (fst win_asc_ic) (snd win_asc_ic) true [1; -1] 0.05
               = Returned (cv_get m 3)
     end /\
     solve_lambda_by_OA obl lat fuel (1 / 3) (ramc + 180) 1
       (fst win_asc_ic) win_end_2 0.1 true = Returned s2 /\
     match s2 with
     | Some _ => cv_get m 2 = s2
     | None => solve_with_fallback obl lat fuel (1 / 3) (ramc + 180)
                 (fst win_asc_ic) win_end_2 true [1; -1] 0.05
               = Returned (cv_get m 2)
     end).
Proof.
  intros Hm. apply placidus_cv_map_inv in Hm. cbv zeta in Hm |- *.
  destruct Hm as (c11 & c12 & c3 & c2 & Hs11 & Hs12 & Hs3 & Hs2 &
                  _ & H2 & H3 & _ & _ & _ & _ & _ & _ & _ & H11 & H12).
  split.
  - exists c11, c12. repeat split; assumption.
  - rewrite H3, H2. unfold solve_c3 in Hs3. unfold solve_c2 in Hs2. cbv zeta in Hs2.
    destruct (solve_lambda_by_OA obl lat fuel (2 / 3) _ _ _ _ _ _) as [s3| |];
      cbn [run_bind] in Hs3; try discriminate.
    destruct (solve_lambda_by_OA obl lat fuel (1 / 3) _ _ _ _ _ _) as [s2| |];
      cbn [run_bind] in Hs2; try discriminate.
    exists s3, s2. split; [reflexivity|]. split.
    + destruct s3; [now injection Hs3|exact Hs3].
    + split; [reflexivity|]. destruct s2; [now injection Hs2|exact Hs2].
Qed.

Lemma cusps_11_12_have_no_dense_fallback_witness :
  exists m,
    placidus_cv_map 23.4 45 fuel_sample 0 10 280 = Returned m /\
    exists c11 c12,
      solve_lambda_by_OA 23.4 45 fuel_sample (2 / 3) 0 1
        (fst (win_ccw (normalize_deg 280) (normalize_deg 10)))
        (snd (win_ccw (normalize_deg 280) (normalize_deg 10))) 0.5 false
      = Returned c11 /\
      cv_get m 11 = c11 /\
      solve_lambda_by_OA 23.4 45 fuel_sample (1 / 3) 0 1
        (match c11 with
         | Some v => v
         | None => fst (win_ccw (normalize_deg 280) (normalize_deg 10))
         end)
        (snd (win_ccw (normalize_deg 280) (normalize_deg 10))) 0.5 false
      = Returned c12 /\
      cv_get m 12 = c12.
Proof.
  destruct (placidus_cv_map_finishes 23.4 45 fuel_sample fuel_sample_enough 0 10 280)
    as [m Hm].
  exists m. split; [exact Hm|].
  exact (proj1 (cusps_11_12_have_no_dense_fallback 23.4 45 fuel_sample 0 10 280 m Hm)).
Defined.





Lemma equal_system_exact_witness :
  exists r,
    calculate_houses fuel_sample t_sample 45 0 "equal" = Returned r /\
    cusp r 5 = Some (pymod (ap_longitude (ascendant r) + IZR (5 - 1) * 30) 360).
Proof.
  destruct (calculate_houses_finishes fuel_sample t_sample 45 0 "equal"
              fuel_sample_enough asc_denominator_sample_45) as [r Hr].
  exists r. split; [exact Hr|].
  apply (equal_system_exact fuel_sample t_sample 45 0 r 5 Hr). lia.
Defined.







(** In exact arithmetic the opposite cusps of the Koch branch are exactly
    antipodal. *)
Lemma koch_opposite_cusps_antipodal_in_exact_arithmetic fuel t lat lon r (i : Z) :
  calculate_houses fuel t lat lon "koch" = Returned r ->
  (1 <= i <= 6)%Z ->
  antipodal r i (i + 6).
Proof.
  intros Hr Hi. apply calculate_houses_inv in Hr. cbv zeta in Hr.
  destruct Hr as (_ & _ & _ & _ & _ & Hh).
  cbn [String.eqb Ascii.eqb Bool.eqb] in Hh. injection Hh as Hh.
  set (asc := asc_longitude_of _ _ _) in Hh.
  set (mcl := mc_longitude_of _ _) in Hh.
  assert (Hmc : pymod mcl 360 = mcl)
    by (apply pymod_small, mc_longitude_of_range).
  unfold antipodal, cusp. rewrite <- Hh. clear Hh.
  assert (H : (i = 1 \/ i = 2 \/ i = 3 \/ i = 4 \/ i = 5 \/ i = 6)%Z) by lia.
  repeat (destruct H as [H|H]); subst i;
    (eexists; eexists; split; [reflexivity | split; [reflexivity | ] ]);
    cbn [longitude]; rewrite ?pymod_add_l.
  - reflexivity.
  - f_equal; lra.
  - f_equal; lra.
  - replace (mcl + 180 + 180) with (mcl + 360 * IZR 1) by lra.
    rewrite pymod_shift. symmetry. exact Hmc.
  - f_equal; lra.
  - f_equal; lra.
Qed.

Lemma circ_diff_of_pymod (x : R) : circ_diff (pymod x 360) x = 0.
Proof.
  unfold circ_diff. destruct (pymod_decomp x) as [k Hk]. rewrite Hk.
  replace (x + 360 * IZR k - x + 180) with (180 + 360 * IZR k) by lra.
  rewrite pymod_shift, pymod_small; lra.
Qed.

(** C10 (as the code has it): with [system = "koch"] every opposite pair of
    cusps is antipodal up to rounding: for i = 1..6, [cusp(i+6)] and
    [cusp(i) + 180] are at most 1e-9 degrees apart on the circle, the
    intermediate cusps included.  (In exact arithmetic they coincide.) *)
Theorem koch_opposite_cusps_antipodal fuel t lat lon r (i : Z) :
  calculate_houses fuel t lat lon "koch" = Returned r ->
  (1 <= i <= 6)%Z ->
  antipodal_within 1e-9 r i (i + 6).
Proof.
  intros Hr Hi.
  destruct (koch_opposite_cusps_antipodal_in_exact_arithmetic _ _ _ _ _ i Hr Hi)
    as (a & b & Ha & Hb & ->).
  exists a, (pymod (a + 180) 360). split; [exact Ha|]. split; [exact Hb|].
  rewrite circ_diff_of_pymod, Rabs_R0. lra.
Qed.

Lemma koch_opposite_cusps_antipodal_witness :
  exists r,
    calculate_houses fuel_sample t_sample 45 0 "koch" = Returned r /\
    antipodal_within 1e-9 r 2 (2 + 6).
Proof.
  destruct (calculate_houses_finishes fuel_sample t_sample 45 0 "koch"
              fuel_sample_enough asc_denominator_sample_45) as [r Hr].
  exists r. split; [exact Hr|].
  apply (koch_opposite_cusps_antipodal fuel_sample t_sample 45 0 r 2 Hr). lia.
Defined.

(** C10 as stated fails: the equality is not exact in binary64.  With an
    ascendant of 210.2 the Koch cusp 12, [(asc + 330) % 360], is
    180.20000000000005 while [(cusp(6) + 180) % 360] is 180.2, whatever the
    MC.  And [%] can return the divisor itself: with a raw MC angle of
    -1.53e-14 degrees, as the arctangent gives it for RAMC = 360.0, the MC
    longitude [raw % 360] is 360.0, which is cusp 10, while
    [(cusp(4) + 180) % 360] is 0.0, whatever the ascendant. *)
Lemma koch_cusp_12_is_not_exactly_opposite_cusp_6 :
  (forall mc_longitude : float,
     let c := Binary64.koch_cusp 210.2 mc_longitude in
     c 12%nat = 180.20000000000005%float /\
     Binary64.py_mod (c 6%nat + 180) 360 = 180.2%float /\
     (c 12%nat =? Binary64.py_mod (c 6%nat + 180) 360)%float = false) /\
  (forall asc_longitude : float,
     let mc_longitude := Binary64.py_mod (-1.5295578165572557e-14) 360 in
     let c := Binary64.koch_cusp asc_longitude mc_longitude in
     c 10%nat = 360%float /\
     Binary64.py_mod (c 4%nat + 180) 360 = 0%float /\
     (c 10%nat =? Binary64.py_mod (c 4%nat + 180) 360)%float = false).
Proof. split; intros x; cbv zeta; repeat split; reflexivity. Qed.

(** * Further properties of the code *)

(** ** [get_zodiac_sign_jp] *)

Lemma get_zodiac_sign_jp_range (lon : R) : (0 <= get_zodiac_sign_jp lon < 12)%Z.
Proof. unfold get_zodiac_sign_jp. apply Z.mod_pos_bound. lia. Qed.

Lemma zodiac_sign_jp_sector (lon : R) :
  30 * IZR (get_zodiac_sign_jp lon) <= pymod lon 360
  < 30 * IZR (get_zodiac_sign_jp lon) + 30.
Proof.
  unfold get_zodiac_sign_jp, pymod.
  set (n := Zfloor (lon / 30)).
  pose proof (Zfloor_bound (lon / 30)) as Hn. fold n in Hn.
  pose proof (Z.div_mod n 12 ltac:(lia)) as Hdm.
  pose proof (Z.mod_pos_bound n 12 ltac:(lia)) as Hk.
  set (q := (n / 12)%Z) in *. set (k := (n mod 12)%Z) in *. clearbody n q k.
  assert (Hn' : IZR n = 12 * IZR q + IZR k) by (subst n; rewrite plus_IZR, mult_IZR; lra).
  assert (Hk1 : 0 <= IZR k) by (apply IZR_le; lia).
  assert (Hk2 : IZR k <= 11) by (apply IZR_le; lia).
  assert (Hq : Zfloor (lon / 360) = q) by (apply Zfloor_eq; lra).
  rewrite Hq. lra.
Qed.

(** X1: for every real longitude, negative or beyond 360 included, the sign
    index is in 0..11, so the table lookup cannot fail, and it is the
    30-degree sector that contains the longitude reduced modulo 360. *)
Theorem zodiac_sign_is_the_sector_of_the_longitude (lon : R) :
  (0 <= get_zodiac_sign_jp lon < 12)%Z /\
  30 * IZR (get_zodiac_sign_jp lon) <= pymod lon 360
    < 30 * IZR (get_zodiac_sign_jp lon) + 30 /\
  In (zodiac_sign_name lon) zodiac_signs_jp.
Proof.
  split; [apply get_zodiac_sign_jp_range|]. split; [apply zodiac_sign_jp_sector|].
  unfold zodiac_sign_name. apply nth_In.
  pose proof (get_zodiac_sign_jp_range lon). change (length zodiac_signs_jp) with 12%nat.
  lia.
Qed.

(** ** Anchoring of the cusps *)

(** X3: house 1 starts at the ascendant and house 7 at the descendant in
    all three systems.  In the Koch and Placidus branches house 4 starts at
    the IC.  House 10 is the MC longitude itself in the Koch branch and the
    normalised MC longitude in the Placidus branch; in the Equal branch it
    is ASC + 270 and has nothing to do with the MC. *)
Theorem cusps_are_anchored_on_the_angles fuel t lat lon system r :
  calculate_houses fuel t lat lon system = Returned r ->
  cusp r 1 = Some (ap_longitude (ascendant r)) /\
  cusp r 7 = Some (ap_longitude (descendant r)) /\
  (system <> "equal"%string -> cusp r 4 = Some (ap_longitude (ic r))) /\
  (system = "koch"%string -> cusp r 10 = Some (ap_longitude (mc r))) /\
  (system <> "equal"%string -> system <> "koch"%string ->
   cusp r 10 = Some (normalize_deg (ap_longitude (mc r)))) /\
  (system = "equal"%string ->
   cusp r 10 = Some (pymod (ap_longitude (ascendant r) + 270) 360)).
Proof.
  intros Hr. pose proof (calculate_houses_inv _ _ _ _ _ _ Hr) as Hinv.
  cbv zeta in Hinv. destruct Hinv as (_ & Hasc & Hmc & Hdsc & Hic & Hh).
  pose proof (asc_longitude_of_range (ramc_degrees_of t lon)
                (obliquity_degrees_of t) lat) as Ha.
  rewrite Hdsc, Hic, Hasc, Hmc.
  set (asc := asc_longitude_of _ _ _) in *. set (mcl := mc_longitude_of _ _) in *.
  clearbody asc mcl.
  destruct (String.eqb system "equal") eqn:He.
  - apply String.eqb_eq in He. injection Hh as Hh. unfold cusp. rewrite <- Hh.
    rewrite !cusp_equal_houses by lia. cbn [longitude].
    split; [|split; [|split; [|split; [|split]]]].
    + f_equal. change (IZR (1 - 1)) with (IZR 0).
      replace (asc + 0 * 30) with asc by lra.
      apply pymod_small; lra.
    + do 2 f_equal. change (IZR (7 - 1)) with (IZR 6). lra.
    + intros Hne. contradiction.
    + intros Hk. rewrite Hk in He. discriminate.
    + intros Hne. contradiction.
    + intros _. do 2 f_equal. change (IZR (10 - 1)) with (IZR 9). lra.
  - apply String.eqb_neq in He.
    destruct (String.eqb system "koch") eqn:Hk.
    + injection Hh as Hh. unfold cusp. rewrite <- Hh.
      split; [reflexivity|]. split; [reflexivity|].
      split; [intros _; reflexivity|]. split; [intros _; reflexivity|].
      split; [|intros Heq; contradiction].
      intros _ Hnk. apply String.eqb_eq in Hk. contradiction.
    + apply placidus_houses_inv in Hh. destruct Hh as (m & Hm' & Hhs).
      apply placidus_cv_map_inv in Hm'. cbv zeta in Hm'.
      destruct Hm' as (c11 & c12 & c3 & c2 & _ & _ & _ & _ &
                       H1 & _ & _ & H4 & _ & _ & H7 & _ & _ & H10 & _ & _).
      unfold cusp. rewrite Hhs, !find_placidus_house by lia. cbn [longitude].
      unfold number_to_long. rewrite H1, H4, H7, H10.
      rewrite !normalize_deg_pymod, !pymod_idem.
      rewrite (pymod_small asc Ha).
      split; [reflexivity|]. split; [reflexivity|].
      split; [intros _; reflexivity|].
      split; [intros Heq; rewrite Heq in Hk; discriminate|].
      split; [intros _ _; reflexivity|intros Heq; contradiction].
Qed.

Lemma cusps_are_anchored_on_the_angles_witness :
  exists r,
    calculate_houses fuel_sample t_sample 45 0 "placidus" = Returned r /\
    cusp r 1 = Some (ap_longitude (ascendant r)) /\
    cusp r 7 = Some (ap_longitude (descendant r)) /\
    cusp r 4 = Some (ap_longitude (ic r)) /\
    cusp r 10 = Some (normalize_deg (ap_longitude (mc r))).
Proof.
  destruct (calculate_houses_finishes fuel_sample t_sample 45 0 "placidus"
              fuel_sample_enough asc_denominator_sample_45) as [r Hr].
  exists r. split; [exact Hr|].
  destruct (cusps_are_anchored_on_the_angles fuel_sample t_sample 45 0 "placidus" r Hr)
    as (H1 & H7 & H4 & _ & H10 & _).
  split; [exact H1|]. split; [exact H7|].
  split; [apply H4; discriminate|apply H10; discriminate].
Defined.

(** ** The root-finder: values it returns *)

Lemma bisection_range n F lo hi flo fhi :
  0 <= bisection n F lo hi flo fhi < 360.
Proof.
  revert lo hi flo fhi. induction n as [|n IH]; intros lo hi flo fhi;
    cbn [bisection]; cbv zeta.
  - apply normalize_deg_range.
  - destruct (F _) as [fmid|]; [|apply IH].
    destruct (Rltb _ _); [apply normalize_deg_range|].
    destruct (Rleb _ _); apply IH.
Qed.

Lemma scan_body_range F prev lam :
  prev_in_range prev -> 0 <= lam < 360 ->
  match scan_body F prev lam with
  | inl root => 0 <= root < 360
  | inr prev' => prev_in_range prev'
  end.
Proof.
  intros Hp Hl. unfold scan_body. cbv zeta.
  destruct prev as [[prev_lam|] [prev_val|]]; cbn [fst] in *;
    destruct (F lam) as [v|]; try exact Hl.
  unfold prev_in_range in Hp. cbn [fst] in Hp.
  destruct (Reqb prev_val 0); [exact Hp|].
  destruct (Reqb v 0); [exact Hl|].
  destruct (Rltb _ 0); [apply bisection_range|exact Hl].
Qed.

Lemma scan_while_range fuel F e s :
  forall prev x v,
    prev_in_range prev ->
    scan_while fuel F e s prev x = Returned (Some v) -> 0 <= v < 360.
Proof.
  induction fuel as [|fuel IH]; intros prev x v Hp H; [discriminate|].
  cbn [scan_while] in H. cbv zeta in H.
  pose proof (scan_body_range F prev (normalize_deg (x + s)) Hp
                (normalize_deg_range _)) as Hb.
  destruct (scan_body _ _ _) as [root|prev'].
  - injection H as <-. exact Hb.
  - destruct (Rleb _ _); [discriminate|]. eapply IH; eassumption.
Qed.

Lemma scan_window_range fuel F start end_ s v :
  scan_window fuel F start end_ s = Returned (Some v) -> 0 <= v < 360.
Proof.
  unfold scan_window. cbv zeta. intros H.
  pose proof (scan_body_range F (None, None) (normalize_deg (start + s)) I
                (normalize_deg_range _)) as Hb.
  destruct (scan_body _ _ _) as [root|prev'].
  - injection H as <-. exact Hb.
  - eapply scan_while_range; eassumption.
Qed.

Lemma sample_angle_range F_val opts angle best :
  0 <= angle < 360 -> best_in_range best ->
  best_in_range (sample_angle F_val opts angle best).
Proof.
  intros Ha. unfold sample_angle. revert best.
  induction opts as [|s opts IH]; intros best Hb; cbn [fold_left]; [exact Hb|].
  apply IH. destruct (F_val angle s) as [fv|]; [|exact Hb].
  cbv zeta. destruct best as [[[b0 lam] s1]|]; [|exact Ha].
  destruct (Rltb _ _); [exact Ha|exact Hb].
Qed.

Lemma sample_while_range fuel F_val opts e s :
  forall best angle guard best',
    0 <= angle < 360 -> best_in_range best ->
    sample_while fuel F_val opts e s best angle guard = Returned best' ->
    best_in_range best'.
Proof.
  induction fuel as [|fuel IH]; intros best angle guard best' Ha Hb H; [discriminate|].
  cbn [sample_while] in H. cbv zeta in H.
  pose proof (sample_angle_range F_val opts angle best Ha Hb) as Hb'.
  destruct (_ || _).
  - injection H as <-. exact Hb'.
  - eapply IH; [apply normalize_deg_range|exact Hb'|exact H].
Qed.

Lemma secant_range n F_val s0 ws we :
  forall lam0 f0 lam1 f1,
    0 <= lam1 < 360 ->
    0 <= secant n F_val s0 ws we lam0 f0 lam1 f1 < 360.
Proof.
  induction n as [|n IH]; intros lam0 f0 lam1 f1 H1; cbn [secant]; [exact H1|].
  cbv zeta. destruct (Reqb _ 0); [exact H1|].
  match goal with
  | |- context [F_val ?l s0] => set (lam2 := l)
  end.
  assert (H2 : 0 <= lam2 < 360)
    by (subst lam2; destruct (_ || _); apply normalize_deg_range).
  clearbody lam2.
  destruct (F_val lam2 s0) as [f2|]; [|exact H1].
  destruct (Rltb _ _); [exact H2|apply IH; exact H2].
Qed.

Lemma solve_lambda_by_OA_range obl lat fuel n b sg ws we st ud v :
  solve_lambda_by_OA obl lat fuel n b sg ws we st ud = Returned (Some v) ->
  0 <= v < 360.
Proof. unfold solve_lambda_by_OA. cbv zeta. apply scan_window_range. Qed.

Lemma solve_with_fallback_range obl lat fuel n b ws we ud opts st v :
  solve_with_fallback obl lat fuel n b ws we ud opts st = Returned (Some v) ->
  0 <= v < 360.
Proof.
  unfold solve_with_fallback. cbv zeta.
  set (fv := F_val obl lat (normalize_deg b) n ud).
  destruct (sample_while fuel fv opts (normalize_deg we) st None (normalize_deg ws) 0)
    as [best| |] eqn:Hs; cbn [run_bind]; try discriminate.
  apply sample_while_range in Hs; [|apply normalize_deg_range|exact I].
  destruct best as [[[af lam0] s0]|]; [|discriminate].
  unfold best_in_range in Hs.
  destruct (fv lam0 s0) as [f0|].
  - destruct (fv (normalize_deg (lam0 + st)) s0) as [f1|].
    + match goal with
      | |- Returned (Some ?x) = _ -> _ =>
          assert (Hx : 0 <= x < 360) by (apply secant_range, normalize_deg_range);
          revert Hx; generalize x
      end.
      intros x Hx [= <-]. exact Hx.
    + intros [= <-]. exact Hs.
  - intros [= <-]. exact Hs.
Qed.

(** X5: every value that the Placidus branch stores in [cv_map] (angles,
    solved cusps and reflected cusps) is already in [0,360); the final
    [normalize_deg] leaves it unchanged, so the house longitude is the
    stored value itself. *)
Theorem placidus_cusp_values_are_normalised obl lat fuel ramc asc_longitude mc_longitude m :
  placidus_cv_map obl lat fuel ramc asc_longitude mc_longitude = Returned m ->
  forall (k : Z) (v : R),
    (1 <= k <= 12)%Z ->
    cv_get m k = Some v ->
    0 <= v < 360 /\ number_to_long m asc_longitude k = v.
Proof.
  intros Hm k v Hrange Hk.
  assert (Hv : 0 <= v < 360).
  { pose proof (placidus_cv_map_inv _ _ _ _ _ _ _ Hm) as Hinv. cbv zeta in Hinv.
    destruct Hinv as (c11 & c12 & c3 & c2 & Hs11 & Hs12 & Hs3 & Hs2 &
                      H1 & H2 & H3 & H4 & H5 & H6 & H7 & H8 & H9 & H10 & H11 & H12).
    assert (R11 : forall x, c11 = Some x -> 0 <= x < 360).
    { intros x ->. unfold solve_c11 in Hs11.
      eapply solve_lambda_by_OA_range; eassumption. }
    assert (R12 : forall x, c12 = Some x -> 0 <= x < 360).
    { intros x ->. unfold solve_c12 in Hs12.
      eapply solve_lambda_by_OA_range; eassumption. }
    assert (R3 : forall x, c3 = Some x -> 0 <= x < 360).
    { intros x ->. unfold solve_c3 in Hs3.
      destruct (solve_lambda_by_OA _ _ _ _ _ _ _ _ _ _) as [[y|]| |] eqn:Hsc;
        cbn [run_bind] in Hs3; try discriminate.
      - injection Hs3 as ->. eapply solve_lambda_by_OA_range; eassumption.
      - eapply solve_with_fallback_range; eassumption. }
    assert (R2 : forall x, c2 = Some x -> 0 <= x < 360).
    { intros x ->. unfold solve_c2 in Hs2. cbv zeta in Hs2.
      destruct (solve_lambda_by_OA _ _ _ _ _ _ _ _ _ _) as [[y|]| |] eqn:Hsc;
        cbn [run_bind] in Hs2; try discriminate.
      - injection Hs2 as ->. eapply solve_lambda_by_OA_range; eassumption.
      - eapply solve_with_fallback_range; eassumption. }
    split_1_12 k Hc.
    - rewrite H1 in Hk. injection Hk as <-. apply normalize_deg_range.
    - rewrite H2 in Hk. auto.
    - rewrite H3 in Hk. auto.
    - rewrite H4 in Hk. injection Hk as <-. apply normalize_deg_range.
    - rewrite H5 in Hk. destruct c11; cbn in Hk; [|discriminate].
      injection Hk as <-. apply normalize_deg_range.
    - rewrite H6 in Hk. destruct c12; cbn in Hk; [|discriminate].
      injection Hk as <-. apply normalize_deg_range.
    - rewrite H7 in Hk. injection Hk as <-. apply normalize_deg_range.
    - rewrite H8 in Hk. destruct c2; cbn in Hk; [|discriminate].
      injection Hk as <-. apply normalize_deg_range.
    - rewrite H9 in Hk. destruct c3; cbn in Hk; [|discriminate].
      injection Hk as <-. apply normalize_deg_range.
    - rewrite H10 in Hk. injection Hk as <-. apply normalize_deg_range.
    - rewrite H11 in Hk. auto.
    - rewrite H12 in Hk. auto. }
  split; [exact Hv|].
  unfold number_to_long. rewrite Hk, normalize_deg_pymod. now apply pymod_small.
Qed.

Lemma placidus_cusp_values_are_normalised_witness :
  exists m,
    placidus_cv_map 23.4 45 fuel_sample 0 10 280 = Returned m /\
    forall v, cv_get m 11 = Some v ->
              0 <= v < 360 /\ number_to_long m 10 11 = v.
Proof.
  destruct (placidus_cv_map_finishes 23.4 45 fuel_sample fuel_sample_enough 0 10 280)
    as [m Hm].
  exists m. split; [exact Hm|]. intros v Hv.
  apply (placidus_cusp_values_are_normalised 23.4 45 fuel_sample 0 10 280 m Hm 11 v);
    [lia|exact Hv].
Defined.

Lemma between_mid_l (lo hi x : R) :
  between lo ((lo + hi) / 2) x -> between lo hi x.
Proof. unfold between. lra. Qed.

Lemma between_mid_r (lo hi x : R) :
  between ((lo + hi) / 2) hi x -> between lo hi x.
Proof. unfold between. lra. Qed.

(** X6: bisection never leaves the interval between the two samples that
    bracket the sign change.  It returns [normalize_deg x] for a point [x]
    between them that either has |F(x)| < 1e-6 or is the midpoint of a
    sub-bracket [2^n] times narrower than the initial one (n = 30 in the
    code). *)
Theorem bisection_stays_in_the_bracket (n : nat) (F : R -> option R)
    (lo hi flo fhi : R) :
  exists x,
    between lo hi x /\
    bisection n F lo hi flo fhi = normalize_deg x /\
    ((exists f, F x = Some f /\ Rabs f < 1e-6) \/
     (exists lo' hi',
        x = (lo' + hi') / 2 /\ (hi' - lo') * 2 ^ n = hi - lo /\
        between lo hi lo' /\ between lo hi hi')).
Proof.
  revert lo hi flo fhi. induction n as [|n IH]; intros lo hi flo fhi.
  - exists ((lo + hi) / 2). split; [unfold between; lra|]. split; [reflexivity|].
    right. exists lo, hi. repeat split; try (unfold between; lra).
  - cbn [bisection]. cbv zeta.
    assert (Hleft : forall flo' fhi',
               exists x, between lo hi x /\
                 bisection n F lo ((lo + hi) / 2) flo' fhi' = normalize_deg x /\
                 ((exists f, F x = Some f /\ Rabs f < 1e-6) \/
                  (exists lo' hi',
                     x = (lo' + hi') / 2 /\ (hi' - lo') * 2 ^ S n = hi - lo /\
                     between lo hi lo' /\ between lo hi hi'))).
    { intros flo' fhi'.
      destruct (IH lo ((lo + hi) / 2) flo' fhi') as (x & Hx & Hb & Hor).
      exists x. split; [now apply between_mid_l|]. split; [exact Hb|].
      destruct Hor as [Hf|(lo' & hi' & Hm & Hw & Hl & Hh)]; [now left|right].
      exists lo', hi'. split; [exact Hm|]. split; [simpl; lra|].
      split; now apply between_mid_l. }
    assert (Hright : forall flo' fhi',
               exists x, between lo hi x /\
                 bisection n F ((lo + hi) / 2) hi flo' fhi' = normalize_deg x /\
                 ((exists f, F x = Some f /\ Rabs f < 1e-6) \/
                  (exists lo' hi',
                     x = (lo' + hi') / 2 /\ (hi' - lo') * 2 ^ S n = hi - lo /\
                     between lo hi lo' /\ between lo hi hi'))).
    { intros flo' fhi'.
      destruct (IH ((lo + hi) / 2) hi flo' fhi') as (x & Hx & Hb & Hor).
      exists x. split; [now apply between_mid_r|]. split; [exact Hb|].
      destruct Hor as [Hf|(lo' & hi' & Hm & Hw & Hl & Hh)]; [now left|right].
      exists lo', hi'. split; [exact Hm|]. split; [simpl; lra|].
      split; now apply between_mid_r. }
    destruct (F ((lo + hi) / 2)) as [fmid|] eqn:Hmid; [|apply Hright].
    unfold Rltb at 1. destruct (Rlt_dec (Rabs fmid) 1e-6) as [Htol|_].
    + exists ((lo + hi) / 2). split; [unfold between; lra|]. split; [reflexivity|].
      left. exists fmid. split; [exact Hmid|exact Htol].
    + destruct (Rleb _ _); [apply Hleft|apply Hright].
Qed.

(** ** The window scan: when it finds nothing *)

Lemma scan_list_none F :
  forall l prev,
    (fst prev = None -> snd prev = None) ->
    scan_list F prev l = None <-> no_sign_change (snd prev) (map F l).
Proof.
  induction l as [|lam l IH]; intros prev Hp; cbn [scan_list map no_sign_change].
  - tauto.
  - unfold scan_body. cbv zeta.
    destruct prev as [[prev_lam|] [prev_val|]]; cbn [fst snd] in *;
      try (specialize (Hp eq_refl); discriminate);
      destruct (F lam) as [v|] eqn:Hv;
      try (rewrite IH by (cbn; discriminate); cbn [snd]; rewrite ?Hv; tauto).
    unfold Reqb, Rltb.
    destruct (Req_dec_T prev_val 0) as [Hz|Hnz].
    { split; [discriminate|]. intros [Hpos _]. subst. lra. }
    destruct (Req_dec_T v 0) as [Hvz|Hvnz].
    { split; [discriminate|]. intros [Hpos _]. subst. lra. }
    destruct (Rlt_dec (prev_val * v) 0) as [Hneg|Hnneg].
    { split; [discriminate|]. intros [Hpos _]. lra. }
    rewrite IH by (cbn; discriminate). cbn [snd].
    assert (Hprod : prev_val * v <> 0) by (apply Rmult_integral_contrapositive; tauto).
    split; [intros H; split; [lra|exact H]|tauto].
Qed.

(** X7: [solve_lambda_by_OA] declares a cusp missing exactly when, along the
    angles of [iter_window], any two consecutive samples at which F is
    defined have a strictly positive product: an exact zero or a sign change
    between neighbours always yields a value, and a sample where F is
    undefined separates its neighbours. *)
Theorem scan_finds_nothing_iff_no_sign_change obl lat fuel
    n_frac base_ramc sign_factor win_start win_end step use_descension angles :
  iter_window fuel win_start win_end step = Returned angles ->
  solve_lambda_by_OA obl lat fuel n_frac base_ramc sign_factor
    win_start win_end step use_descension = Returned None
  <-> no_sign_change None
        (map (F obl lat (normalize_deg base_ramc) n_frac sign_factor use_descension)
             angles).
Proof.
  intros Hl. unfold solve_lambda_by_OA. cbv zeta.
  rewrite (scan_window_as_list _ _ _ _ _ _ Hl).
  rewrite <- (scan_list_none _ angles (None, None)) by reflexivity.
  split; [intros [= H]; exact H|intros ->; reflexivity].
Qed.

Lemma scan_finds_nothing_iff_no_sign_change_witness :
  exists angles,
    iter_window fuel_sample 280 10 0.5 = Returned angles /\
    (solve_lambda_by_OA 23.4 45 fuel_sample (2 / 3) 0 1 280 10 0.5 false
     = Returned None
     <-> no_sign_change None
           (map (F 23.4 45 (normalize_deg 0) (2 / 3) 1 false) angles)).
Proof.
  destruct (iter_window_finishes 280 10 0.5 720 fuel_sample)
    as (angles & Hl & _ & _); try lra; try (unfold fuel_sample; lia).
  exists angles. split; [exact Hl|].
  exact (scan_finds_nothing_iff_no_sign_change 23.4 45 fuel_sample (2 / 3) 0 1
           280 10 0.5 false angles Hl).
Defined.

(** ** The dense sampling of [solve_with_fallback] *)

Lemma least_over_step F_val pairs best angle s :
  least_over F_val pairs best ->
  least_over F_val (pairs ++ [(angle, s)])
    (match F_val angle s with
     | None => best
     | Some fv =>
         let af := Rabs fv in
         match best with
         | None => Some (af, angle, s)
         | Some (b0, _, _) => if Rltb af b0 then Some (af, angle, s) else best
         end
     end).
Proof.
  intros Hb. destruct (F_val angle s) as [fv|] eqn:Hfv.
  - cbv zeta. destruct best as [[[b0 lam] s0]|].
    + destruct Hb as (Hin & (v0 & Hv0 & Hb0) & Hmin).
      unfold Rltb. destruct (Rlt_dec (Rabs fv) b0) as [Hlt|Hge].
      * split; [apply in_or_app; right; now left|].
        split; [exists fv; now split|].
        intros a s' v Hin' Hv. apply in_app_or in Hin'.
        destruct Hin' as [Hin'|[[= <- <-]|[]]].
        -- specialize (Hmin a s' v Hin' Hv). lra.
        -- rewrite Hfv in Hv. injection Hv as <-. lra.
      * split; [apply in_or_app; now left|].
        split; [exists v0; now split|].
        intros a s' v Hin' Hv. apply in_app_or in Hin'.
        destruct Hin' as [Hin'|[[= <- <-]|[]]].
        -- exact (Hmin a s' v Hin' Hv).
        -- rewrite Hfv in Hv. injection Hv as <-. lra.
    + split; [apply in_or_app; right; now left|].
      split; [exists fv; now split|].
      intros a s' v Hin' Hv. apply in_app_or in Hin'.
      destruct Hin' as [Hin'|[[= <- <-]|[]]].
      * rewrite (Hb a s' Hin') in Hv. discriminate.
      * rewrite Hfv in Hv. injection Hv as <-. lra.
  - destruct best as [[[b0 lam] s0]|].
    + destruct Hb as (Hin & Hex & Hmin).
      split; [apply in_or_app; now left|]. split; [exact Hex|].
      intros a s' v Hin' Hv. apply in_app_or in Hin'.
      destruct Hin' as [Hin'|[[= <- <-]|[]]].
      * exact (Hmin a s' v Hin' Hv).
      * rewrite Hfv in Hv. discriminate.
    + intros a s' Hin'. apply in_app_or in Hin'.
      destruct Hin' as [Hin'|[[= <- <-]|[]]]; [now apply Hb|exact Hfv].
Qed.

Lemma sample_angle_least F_val opts angle :
  forall pairs best,
    least_over F_val pairs best ->
    least_over F_val (pairs ++ map (pair angle) opts)
      (sample_angle F_val opts angle best).
Proof.
  unfold sample_angle.
  induction opts as [|s opts IH]; intros pairs best Hb; cbn [fold_left map].
  - rewrite app_nil_r. exact Hb.
  - replace (pairs ++ (angle, s) :: map (pair angle) opts)
      with ((pairs ++ [(angle, s)]) ++ map (pair angle) opts)
      by (rewrite <- app_assoc; reflexivity).
    apply IH. now apply least_over_step.
Qed.

Lemma sample_while_least F_val opts e s (fuel : nat) :
  forall best angle guard pairs best',
    least_over F_val pairs best ->
    sample_while fuel F_val opts e s best angle guard = Returned best' ->
    exists n, (1 <= n <= fuel)%nat /\
      least_over F_val (pairs ++ list_prod (sample_seq n angle s) opts) best'.
Proof.
  induction fuel as [|fuel IH]; intros best angle guard pairs best' Hb H;
    [discriminate|].
  cbn [sample_while] in H. cbv zeta in H.
  pose proof (sample_angle_least F_val opts angle pairs best Hb) as Hb1.
  destruct (_ || _).
  - injection H as <-. exists 1%nat. split; [lia|].
    cbn [sample_seq list_prod]. rewrite app_nil_r. exact Hb1.
  - destruct (IH _ _ _ _ _ Hb1 H) as (n & Hn & Hl).
    exists (S n). split; [lia|].
    cbn [sample_seq list_prod]. rewrite app_assoc. exact Hl.
Qed.

(** X8: the sampling loop of [solve_with_fallback] returns a sample of least
    |F| among all the angles it visited and all the sign options tried at
    them; it returns no sample only if F is undefined at every one of them
    (the cusp is then missing also after the fallback). *)
Theorem dense_sampling_returns_a_least_sample F_val opts end_n sample_step
    (fuel : nat) angle guard best :
  sample_while fuel F_val opts end_n sample_step None angle guard = Returned best ->
  exists n, (1 <= n <= fuel)%nat /\
    least_sample F_val opts (sample_seq n angle sample_step) best.
Proof.
  intros H.
  destruct (sample_while_least F_val opts end_n sample_step fuel None angle guard []
              best) as (n & Hn & Hl); [intros a s []|exact H|].
  exists n. split; [exact Hn|]. cbn [app] in Hl.
  unfold least_sample, least_over in *.
  destruct best as [[[af lam] s0]|].
  - destruct Hl as (Hin & Hex & Hmin). apply in_prod_iff in Hin.
    split; [apply Hin|]. split; [apply Hin|]. split; [exact Hex|].
    intros a s v Ha Hs Hv. apply (Hmin a s v); [|exact Hv].
    apply in_prod_iff. now split.
  - intros a s Ha Hs. apply Hl. apply in_prod_iff. now split.
Qed.

Lemma dense_sampling_returns_a_least_sample_witness :
  exists best,
    sample_while fuel_sample (F_val 23.4 45 0 (2 / 3) true) [1; -1] 100 0.05
      None 10 0 = Returned best /\
    exists n, (1 <= n <= fuel_sample)%nat /\
      least_sample (F_val 23.4 45 0 (2 / 3) true) [1; -1] (sample_seq n 10 0.05) best.
Proof.
  destruct (sample_while_finishes (F_val 23.4 45 0 (2 / 3) true) [1; -1] 100 0.05
              fuel_sample None 10 0%Z) as [best Hbest].
  - unfold fuel_sample. lia.
  - rewrite py_int_7200. unfold fuel_sample. lia.
  - exists best. split; [exact Hbest|].
    exact (dense_sampling_returns_a_least_sample _ _ _ _ _ _ _ _ Hbest).
Defined.

(** ** [_assign_planets_to_houses] *)

Lemma in_house_false (a b x : R) :
  in_house a b x = false ->
  (a < b /\ (x < a \/ b <= x)) \/ (b <= a /\ x < a /\ b <= x).
Proof.
  unfold in_house, Rltb, Rleb.
  destruct (Rlt_dec a b); destruct (Rle_dec a x); destruct (Rlt_dec x b);
    cbn; intros H; try discriminate; lra.
Qed.

(** Around a closed chain of cusps some house always contains the
    longitude: the test cannot fail for all of them. *)
Lemma in_house_cycle (c : nat -> R) (n : nat) (lon : R) :
  (0 < n)%nat -> c n = c 0%nat ->
  (forall i, (i < n)%nat -> in_house (c i) (c (S i)) lon = false) -> False.
Proof.
  intros Hn Hc Hall.
  destruct (Rle_dec (c 0%nat) lon) as [Hle|Hgt].
  - assert (Hup : forall i, (i <= n)%nat ->
               c i <= lon /\ c 0%nat <= c i /\ ((0 < i)%nat -> c 0%nat < c i)).
    { induction i as [|i IH]; intros Hi.
      - repeat split; try lra. lia.
      - destruct (IH ltac:(lia)) as (H1 & H2 & H3).
        destruct (in_house_false _ _ _ (Hall i ltac:(lia))) as [[Hab Hx]|[Hab Hx]];
          [|lra].
        repeat split; try lra. }
    destruct (Hup n (Nat.le_refl n)) as (_ & _ & H3). specialize (H3 Hn). lra.
  - assert (Hdown : forall j, (j <= n)%nat ->
               lon < c (n - j)%nat /\ ((0 < j)%nat -> c (n - j)%nat < c n)).
    { induction j as [|j IH]; intros Hj.
      - rewrite Nat.sub_0_r. split; [lra|lia].
      - destruct (IH ltac:(lia)) as (H1 & H2).
        pose proof (Hall (n - S j)%nat ltac:(lia)) as Hf.
        replace (S (n - S j)) with (n - j)%nat in Hf by lia.
        destruct (in_house_false _ _ _ Hf) as [[Hab Hx]|[Hab Hx]]; [|lra].
        split; [lra|]. intros _. destruct j as [|j].
        + rewrite Nat.sub_0_r in Hab. exact Hab.
        + specialize (H2 ltac:(lia)). lra. }
    destruct (Hdown n (Nat.le_refl n)) as (_ & H2). specialize (H2 Hn).
    rewrite Nat.sub_diag in H2. lra.
Qed.

Lemma lookup_nth_lt (l : list R) (i : nat) :
  (i < length l)%nat -> l !! i = Some (nth i l 0).
Proof.
  intros Hi. destruct (nth_lookup_or_length l i 0) as [H|H]; [exact H|lia].
Qed.

Lemma assign_loop_from cusps lon :
  (12 <= length cusps)%nat ->
  forall (j : nat) (k : Z),
    (0 <= k)%Z -> (k + Z.of_nat j = 12)%Z ->
    (forall h, (1 <= h <= k)%Z -> house_contains cusps h lon = false) ->
    match assign_loop cusps lon (seqZ k (Z.of_nat j)) with
    | Done (Some h) =>
        (1 <= h <= 12)%Z /\ house_contains cusps h lon = true /\
        forall h', (1 <= h' < h)%Z -> house_contains cusps h' lon = false
    | Done None => forall h, (1 <= h <= 12)%Z -> house_contains cusps h lon = false
    | Failed _ => False
    end.
Proof.
  intros Hlen. induction j as [|j IH]; intros k Hk Hkj Hprev.
  - cbn. intros h Hh. apply Hprev. lia.
  - rewrite seqZ_cons by lia. cbn [assign_loop].
    rewrite (lookup_nth_lt cusps (Z.to_nat k)) by lia.
    assert (Hm : (0 <= (k + 1) mod 12 < 12)%Z) by (apply Z.mod_pos_bound; lia).
    rewrite (lookup_nth_lt cusps (Z.to_nat ((k + 1) mod 12))) by lia.
    assert (Hc : in_house (nth (Z.to_nat k) cusps 0)
                   (nth (Z.to_nat ((k + 1) mod 12)) cusps 0) lon
                 = house_contains cusps (k + 1) lon).
    { unfold house_contains. replace (k + 1 - 1)%Z with k by lia. reflexivity. }
    rewrite Hc. destruct (house_contains cusps (k + 1) lon) eqn:Hin.
    + split; [lia|]. split; [exact Hin|]. intros h' Hh'. apply Hprev. lia.
    + replace (Z.pred (Z.of_nat (S j))) with (Z.of_nat j) by lia.
      apply (IH (Z.succ k)); [lia|lia|].
      intros h Hh. destruct (Z.eq_dec h (k + 1)%Z) as [->|Hne]; [exact Hin|].
      apply Hprev. lia.
Qed.

Lemma assign_loop_total cusps lon :
  (12 <= length cusps)%nat ->
  exists h, assign_loop cusps lon (py_range 0 12) = Done (Some h) /\
    (1 <= h <= 12)%Z /\ house_contains cusps h lon = true /\
    forall h', (1 <= h' < h)%Z -> house_contains cusps h' lon = false.
Proof.
  intros Hlen.
  pose proof (assign_loop_from cusps lon Hlen 12 0 ltac:(lia) ltac:(lia)
                ltac:(intros h Hh; lia)) as H.
  change (seqZ 0 (Z.of_nat 12)) with (py_range 0 12) in H.
  destruct (assign_loop cusps lon (py_range 0 12)) as [[h|]|e]; [| |contradiction].
  - exists h. split; [reflexivity|exact H].
  - exfalso.
    apply (in_house_cycle
             (fun i => nth (Z.to_nat (Z.of_nat i mod 12)) cusps 0) 12 lon);
      [lia|reflexivity|].
    intros i Hi. specialize (H (Z.of_nat i + 1)%Z ltac:(lia)).
    unfold house_contains in H.
    replace (Z.of_nat i + 1 - 1)%Z with (Z.of_nat i) in H by lia.
    rewrite (Z.mod_small (Z.of_nat i) 12) by lia.
    replace (Z.of_nat (S i)) with (Z.of_nat i + 1)%Z by lia. exact H.
Qed.

Lemma assign_planets_placed planets houses :
  (12 <= length houses)%nat ->
  exists planets',
    assign_planets_to_houses planets houses = Done planets' /\
    Forall2 (placed_in_first_house (map hi_longitude houses)) planets planets'.
Proof.
  intros Hlen. unfold assign_planets_to_houses. cbv zeta.
  assert (Hc : (12 <= length (map hi_longitude houses))%nat)
    by (rewrite length_map; exact Hlen).
  set (cusps := map hi_longitude houses) in *. clearbody cusps.
  induction planets as [|p planets IH].
  - exists []. split; [reflexivity|constructor].
  - destruct IH as (rest & Hrest & Hall).
    destruct (assign_loop_total cusps (pymod (pi_longitude p) 360) Hc)
      as (h & Hh & Hr & Hin & Hfirst).
    cbn [assign_planets]. unfold assign_planet. cbv zeta.
    rewrite Hh, Hrest. eexists. split; [reflexivity|].
    constructor; [|exact Hall].
    unfold placed_in_first_house. cbn. repeat split; auto; lia.
Qed.

(** X9: with 12 houses (or more) [_assign_planets_to_houses] never fails and
    never leaves a planet without a house, whatever the twelve cusp values
    are: every planet gets the lowest-numbered house, in 1..12, whose arc
    contains its longitude modulo 360, and only its [house] field changes. *)
Theorem every_planet_gets_its_first_house planets houses :
  (12 <= length houses)%nat ->
  exists planets',
    assign_planets_to_houses planets houses = Done planets' /\
    Forall2 (placed_in_first_house (map hi_longitude houses)) planets planets'.
Proof. apply assign_planets_placed. Qed.

Lemma every_planet_gets_its_first_house_witness :
  exists planets',
    assign_planets_to_houses
      [mkPlanetInfo "Sun" "" 100 0 false]
      (map (fun i => mkHouseInfo i "" (IZR i * 30)) (py_range 1 13))
    = Done planets' /\
    Forall2 (placed_in_first_house
               (map hi_longitude
                    (map (fun i => mkHouseInfo i "" (IZR i * 30)) (py_range 1 13))))
            [mkPlanetInfo "Sun" "" 100 0 false] planets'.
Proof.
  apply (every_planet_gets_its_first_house
           [mkPlanetInfo "Sun" "" 100 0 false]
           (map (fun i => mkHouseInfo i "" (IZR i * 30)) (py_range 1 13))).
  rewrite length_map, py_range_1_13. cbn [length]. lia.
Defined.

Lemma assign_loop_short cusps lon :
  (length cusps < 12)%nat ->
  forall (j : nat) (k : Z),
    (0 <= k <= Z.of_nat (length cusps))%Z -> (k + Z.of_nat j = 12)%Z ->
    match assign_loop cusps lon (seqZ k (Z.of_nat j)) with
    | Done (Some h) => (1 <= h <= Z.of_nat (length cusps) - 1)%Z
    | Done None => False
    | Failed IndexError => True
    end.
Proof.
  intros Hlen. induction j as [|j IH]; intros k Hk Hkj; [lia|].
  rewrite seqZ_cons by lia. cbn [assign_loop].
  destruct (cusps !! Z.to_nat k) as [start|] eqn:Hs; [|exact I].
  apply lookup_lt_Some in Hs.
  assert (Hmod : ((k + 1) mod 12 = k + 1)%Z) by (apply Z.mod_small; lia).
  rewrite Hmod.
  destruct (cusps !! Z.to_nat (k + 1)) as [end_|] eqn:He; [|exact I].
  apply lookup_lt_Some in He.
  destruct (in_house start end_ lon); [lia|].
  replace (Z.pred (Z.of_nat (S j))) with (Z.of_nat j) by lia.
  apply (IH (Z.succ k)); lia.
Qed.

(** X10: with fewer than 12 houses the inner loop cannot run to its end: the
    call either raises [IndexError] or has placed every planet in one of the
    first [len - 1] houses.  With no house or a single one, any planet makes
    it raise; without planets it returns at once. *)
Theorem too_few_houses_raise_or_place_early planets houses :
  (length houses < 12)%nat ->
  ((exists planets',
      assign_planets_to_houses planets houses = Done planets' /\
      length planets' = length planets /\
      Forall (fun p' => (1 <= pi_house p' <= Z.of_nat (length houses) - 1)%Z) planets')
   \/ assign_planets_to_houses planets houses = Failed IndexError) /\
  ((length houses <= 1)%nat -> planets <> [] ->
   assign_planets_to_houses planets houses = Failed IndexError) /\
  assign_planets_to_houses [] houses = Done [].
Proof.
  intros Hlen. unfold assign_planets_to_houses. cbv zeta.
  assert (Hc : (length (map hi_longitude houses) < 12)%nat)
    by (rewrite length_map; exact Hlen).
  rewrite <- (length_map hi_longitude houses).
  set (cusps := map hi_longitude houses) in *. clearbody cusps.
  assert (Hone : forall p,
             match assign_planet cusps p with
             | Done p' => (1 <= pi_house p' <= Z.of_nat (length cusps) - 1)%Z
             | Failed IndexError => True
             end).
  { intros p. unfold assign_planet. cbv zeta.
    pose proof (assign_loop_short cusps (pymod (pi_longitude p) 360) Hc 12 0
                  ltac:(lia) ltac:(lia)) as H.
    change (seqZ 0 (Z.of_nat 12)) with (py_range 0 12) in H.
    destruct (assign_loop cusps _ (py_range 0 12)) as [[h|]|[]];
      [exact H|contradiction|exact I]. }
  split; [|split; [|reflexivity]].
  - induction planets as [|p planets IH].
    + left. exists []. repeat split. constructor.
    + cbn [assign_planets]. specialize (Hone p).
      destruct (assign_planet cusps p) as [p'|[]]; [|now right].
      destruct IH as [(rest & Hrest & Hl & Hall)|Hfail];
        [rewrite Hrest|rewrite Hfail; now right].
      left. eexists. split; [reflexivity|]. split; [cbn; lia|].
      constructor; assumption.
  - intros Hle Hne. destruct planets as [|p planets]; [contradiction|].
    cbn [assign_planets]. specialize (Hone p).
    destruct (assign_planet cusps p) as [p'|[]]; [lia|reflexivity].
Qed.

Lemma too_few_houses_raise_or_place_early_witness :
  assign_planets_to_houses [mkPlanetInfo "Sun" "" 100 0 false] []
  = Failed IndexError.
Proof.
  apply (too_few_houses_raise_or_place_early [mkPlanetInfo "Sun" "" 100 0 false] []);
    [cbn; lia|cbn; lia|discriminate].
Defined.

(** ** [_calculate_elements] and [_calculate_qualities] *)

Lemma count_planets_cons f p planets :
  count_planets f (p :: planets)
  = ((if f p then 1 else 0) + count_planets f planets)%Z.
Proof.
  unfold count_planets. cbn [List.filter]. destruct (f p); cbn [length]; lia.
Qed.

Lemma calculate_elements_fold planets :
  forall acc,
    let e := fold_left
      (fun acc p =>
         if py_in (pi_sign p) fire_signs
         then mkElementsInfo (fire acc + 1) (earth acc) (air acc) (water acc)
         else if py_in (pi_sign p) earth_signs
         then mkElementsInfo (fire acc) (earth acc + 1) (air acc) (water acc)
         else if py_in (pi_sign p) air_signs
         then mkElementsInfo (fire acc) (earth acc) (air acc + 1) (water acc)
         else if py_in (pi_sign p) water_signs
         then mkElementsInfo (fire acc) (earth acc) (air acc) (water acc + 1)
         else acc) planets acc in
    (fire e = fire acc + count_planets (fun p => py_in (pi_sign p) fire_signs) planets /\
     earth e = earth acc + count_planets
                 (fun p => negb (py_in (pi_sign p) fire_signs)
                           && py_in (pi_sign p) earth_signs) planets /\
     air e = air acc + count_planets
               (fun p => negb (py_in (pi_sign p) fire_signs)
                         && negb (py_in (pi_sign p) earth_signs)
                         && py_in (pi_sign p) air_signs) planets /\
     water e = water acc + count_planets
                 (fun p => negb (py_in (pi_sign p) fire_signs)
                           && negb (py_in (pi_sign p) earth_signs)
                           && negb (py_in (pi_sign p) air_signs)
                           && py_in (pi_sign p) water_signs) planets)%Z.
Proof.
  induction planets as [|p planets IH]; intros acc; cbv zeta.
  - unfold count_planets. cbn. lia.
  - cbn [fold_left]. rewrite !count_planets_cons.
    match goal with
    | |- context [fold_left ?f planets ?a] => specialize (IH a)
    end.
    cbv zeta in IH. destruct IH as (H1 & H2 & H3 & H4).
    rewrite H1, H2, H3, H4.
    destruct (py_in (pi_sign p) fire_signs); cbn [negb andb fire earth air water];
      [lia|].
    destruct (py_in (pi_sign p) earth_signs); cbn [negb andb fire earth air water];
      [lia|].
    destruct (py_in (pi_sign p) air_signs); cbn [negb andb fire earth air water];
      [lia|].
    destruct (py_in (pi_sign p) water_signs); cbn [negb andb fire earth air water];
      lia.
Qed.

Lemma calculate_qualities_fold planets :
  forall acc,
    let q := fold_left
      (fun acc p =>
         if py_in (pi_sign p) cardinal_signs
         then mkQualitiesInfo (cardinal acc + 1) (fixed acc) (mutable acc)
         else if py_in (pi_sign p) fixed_signs
         then mkQualitiesInfo (cardinal acc) (fixed acc + 1) (mutable acc)
         else if py_in (pi_sign p) mutable_signs
         then mkQualitiesInfo (cardinal acc) (fixed acc) (mutable acc + 1)
         else acc) planets acc in
    (cardinal q = cardinal acc
                  + count_planets (fun p => py_in (pi_sign p) cardinal_signs) planets /\
     fixed q = fixed acc + count_planets
                 (fun p => negb (py_in (pi_sign p) cardinal_signs)
                           && py_in (pi_sign p) fixed_signs) planets /\
     mutable q = mutable acc + count_planets
                   (fun p => negb (py_in (pi_sign p) cardinal_signs)
                             && negb (py_in (pi_sign p) fixed_signs)
                             && py_in (pi_sign p) mutable_signs) planets)%Z.
Proof.
  induction planets as [|p planets IH]; intros acc; cbv zeta.
  - unfold count_planets. cbn. lia.
  - cbn [fold_left]. rewrite !count_planets_cons.
    match goal with
    | |- context [fold_left ?f planets ?a] => specialize (IH a)
    end.
    cbv zeta in IH. destruct IH as (H1 & H2 & H3).
    rewrite H1, H2, H3.
    destruct (py_in (pi_sign p) cardinal_signs); cbn [negb andb cardinal fixed mutable];
      [lia|].
    destruct (py_in (pi_sign p) fixed_signs); cbn [negb andb cardinal fixed mutable];
      [lia|].
    destruct (py_in (pi_sign p) mutable_signs); cbn [negb andb cardinal fixed mutable];
      lia.
Qed.

(** The element and the quality of a sign follow from its index in the
    table: index mod 4 (fire, earth, air, water) and index mod 3 (cardinal,
    fixed, mutable). *)
Lemma sign_name_classes (lon : R) :
  let s := zodiac_sign_name lon in
  let k := get_zodiac_sign_jp lon in
  py_in s fire_signs = (k mod 4 =? 0)%Z /\
  py_in s earth_signs = (k mod 4 =? 1)%Z /\
  py_in s air_signs = (k mod 4 =? 2)%Z /\
  py_in s water_signs = (k mod 4 =? 3)%Z /\
  py_in s cardinal_signs = (k mod 3 =? 0)%Z /\
  py_in s fixed_signs = (k mod 3 =? 1)%Z /\
  py_in s mutable_signs = (k mod 3 =? 2)%Z.
Proof.
  cbv zeta. unfold zodiac_sign_name.
  pose proof (get_zodiac_sign_jp_range lon) as Hk.
  set (k := get_zodiac_sign_jp lon) in *. clearbody k.
  assert (H : (k = 0 \/ k = 1 \/ k = 2 \/ k = 3 \/ k = 4 \/ k = 5 \/ k = 6 \/
               k = 7 \/ k = 8 \/ k = 9 \/ k = 10 \/ k = 11)%Z) by lia.
  repeat (destruct H as [H|H]); subst k; vm_compute; repeat split.
Qed.

Lemma count_planets_ext f g planets :
  Forall (fun p => f p = g p) planets ->
  count_planets f planets = count_planets g planets.
Proof.
  induction 1 as [|p planets Hp _ IH]; [reflexivity|].
  rewrite !count_planets_cons, Hp, IH. reflexivity.
Qed.

Lemma count_planets_partition4 planets :
  (count_planets (sign_index_is 4 0) planets + count_planets (sign_index_is 4 1) planets
   + count_planets (sign_index_is 4 2) planets + count_planets (sign_index_is 4 3) planets
   = Z.of_nat (length planets))%Z.
Proof.
  induction planets as [|p planets IH]; [reflexivity|].
  rewrite !count_planets_cons. cbn [length]. unfold sign_index_is at 1 3 5 7.
  pose proof (Z.mod_pos_bound (get_zodiac_sign_jp (pi_longitude p)) 4 ltac:(lia)) as Hm.
  set (k := (get_zodiac_sign_jp (pi_longitude p) mod 4)%Z) in *. clearbody k.
  assert (H : (k = 0 \/ k = 1 \/ k = 2 \/ k = 3)%Z) by lia.
  repeat (destruct H as [H|H]); subst k; cbn; lia.
Qed.

Lemma count_planets_partition3 planets :
  (count_planets (sign_index_is 3 0) planets + count_planets (sign_index_is 3 1) planets
   + count_planets (sign_index_is 3 2) planets
   = Z.of_nat (length planets))%Z.
Proof.
  induction planets as [|p planets IH]; [reflexivity|].
  rewrite !count_planets_cons. cbn [length]. unfold sign_index_is at 1 3 5.
  pose proof (Z.mod_pos_bound (get_zodiac_sign_jp (pi_longitude p)) 3 ltac:(lia)) as Hm.
  set (k := (get_zodiac_sign_jp (pi_longitude p) mod 3)%Z) in *. clearbody k.
  assert (H : (k = 0 \/ k = 1 \/ k = 2)%Z) by lia.
  repeat (destruct H as [H|H]); subst k; cbn; lia.
Qed.

Lemma tallies_of_signed_planets planets :
  Forall (fun p => pi_sign p = zodiac_sign_name (pi_longitude p)) planets ->
  let e := calculate_elements planets in
  let q := calculate_qualities planets in
  (fire e = count_planets (sign_index_is 4 0) planets /\
   earth e = count_planets (sign_index_is 4 1) planets /\
   air e = count_planets (sign_index_is 4 2) planets /\
   water e = count_planets (sign_index_is 4 3) planets /\
   fire e + earth e + air e + water e = Z.of_nat (length planets) /\
   cardinal q = count_planets (sign_index_is 3 0) planets /\
   fixed q = count_planets (sign_index_is 3 1) planets /\
   mutable q = count_planets (sign_index_is 3 2) planets /\
   cardinal q + fixed q + mutable q = Z.of_nat (length planets))%Z.
Proof.
  intros Hs. cbv zeta.
  pose proof (calculate_elements_fold planets (mkElementsInfo 0 0 0 0)) as He.
  pose proof (calculate_qualities_fold planets (mkQualitiesInfo 0 0 0)) as Hq.
  cbv zeta in He, Hq. fold (calculate_elements planets) in He.
  fold (calculate_qualities planets) in Hq.
  destruct He as (E1 & E2 & E3 & E4). destruct Hq as (Q1 & Q2 & Q3).
  cbn [fire earth air water cardinal fixed mutable] in *.
  assert (F1 : fire (calculate_elements planets) = count_planets (sign_index_is 4 0) planets).
  { rewrite E1, Z.add_0_l. apply count_planets_ext.
    eapply List.Forall_impl; [|exact Hs]. intros p Hp. cbv beta in Hp. rewrite Hp.
    apply sign_name_classes. }
  assert (F2 : earth (calculate_elements planets) = count_planets (sign_index_is 4 1) planets).
  { rewrite E2, Z.add_0_l. apply count_planets_ext.
    eapply List.Forall_impl; [|exact Hs]. intros p Hp. cbv beta in Hp. rewrite Hp.
    pose proof (sign_name_classes (pi_longitude p)) as Hc. cbv zeta in Hc.
    destruct Hc as (C1 & C2 & _). rewrite C1, C2. unfold sign_index_is.
    destruct (_ =? 0)%Z eqn:A; destruct (_ =? 1)%Z eqn:B; try reflexivity. lia. }
  assert (F3 : air (calculate_elements planets) = count_planets (sign_index_is 4 2) planets).
  { rewrite E3, Z.add_0_l. apply count_planets_ext.
    eapply List.Forall_impl; [|exact Hs]. intros p Hp. cbv beta in Hp. rewrite Hp.
    pose proof (sign_name_classes (pi_longitude p)) as Hc. cbv zeta in Hc.
    destruct Hc as (C1 & C2 & C3 & _). rewrite C1, C2, C3. unfold sign_index_is.
    destruct (_ =? 0)%Z eqn:A; destruct (_ =? 1)%Z eqn:B; destruct (_ =? 2)%Z eqn:C;
      try reflexivity; lia. }
  assert (F4 : water (calculate_elements planets) = count_planets (sign_index_is 4 3) planets).
  { rewrite E4, Z.add_0_l. apply count_planets_ext.
    eapply List.Forall_impl; [|exact Hs]. intros p Hp. cbv beta in Hp. rewrite Hp.
    pose proof (sign_name_classes (pi_longitude p)) as Hc. cbv zeta in Hc.
    destruct Hc as (C1 & C2 & C3 & C4 & _). rewrite C1, C2, C3, C4.
    unfold sign_index_is.
    destruct (_ =? 0)%Z eqn:A; destruct (_ =? 1)%Z eqn:B; destruct (_ =? 2)%Z eqn:C;
      destruct (_ =? 3)%Z eqn:D; try reflexivity; lia. }
  assert (G1 : cardinal (calculate_qualities planets)
               = count_planets (sign_index_is 3 0) planets).
  { rewrite Q1, Z.add_0_l. apply count_planets_ext.
    eapply List.Forall_impl; [|exact Hs]. intros p Hp. cbv beta in Hp. rewrite Hp.
    apply sign_name_classes. }
  assert (G2 : fixed (calculate_qualities planets)
               = count_planets (sign_index_is 3 1) planets).
  { rewrite Q2, Z.add_0_l. apply count_planets_ext.
    eapply List.Forall_impl; [|exact Hs]. intros p Hp. cbv beta in Hp. rewrite Hp.
    pose proof (sign_name_classes (pi_longitude p)) as Hc. cbv zeta in Hc.
    destruct Hc as (_ & _ & _ & _ & C1 & C2 & _). rewrite C1, C2. unfold sign_index_is.
    destruct (_ =? 0)%Z eqn:A; destruct (_ =? 1)%Z eqn:B; try reflexivity. lia. }
  assert (G3 : mutable (calculate_qualities planets)
               = count_planets (sign_index_is 3 2) planets).
  { rewrite Q3, Z.add_0_l. apply count_planets_ext.
    eapply List.Forall_impl; [|exact Hs]. intros p Hp. cbv beta in Hp. rewrite Hp.
    pose proof (sign_name_classes (pi_longitude p)) as Hc. cbv zeta in Hc.
    destruct Hc as (_ & _ & _ & _ & C1 & C2 & C3). rewrite C1, C2, C3.
    unfold sign_index_is.
    destruct (_ =? 0)%Z eqn:A; destruct (_ =? 1)%Z eqn:B; destruct (_ =? 2)%Z eqn:C;
      try reflexivity; lia. }
  rewrite F1, F2, F3, F4, G1, G2, G3.
  pose proof (count_planets_partition4 planets).
  pose proof (count_planets_partition3 planets).
  repeat split; auto.
Qed.

(** X12: for planets that carry the sign of their longitude, as
    [calculate_planets] builds them, the element tallies count the planets
    by sign index modulo 4 (0 fire, 1 earth, 2 air, 3 water) and the quality
    tallies by sign index modulo 3 (0 cardinal, 1 fixed, 2 mutable); each
    group of tallies sums to the number of planets. *)
Theorem tallies_count_planets_by_sign_index planets :
  Forall (fun p => pi_sign p = zodiac_sign_name (pi_longitude p)) planets ->
  let e := calculate_elements planets in
  let q := calculate_qualities planets in
  (fire e = count_planets (sign_index_is 4 0) planets /\
   earth e = count_planets (sign_index_is 4 1) planets /\
   air e = count_planets (sign_index_is 4 2) planets /\
   water e = count_planets (sign_index_is 4 3) planets /\
   fire e + earth e + air e + water e = Z.of_nat (length planets) /\
   cardinal q = count_planets (sign_index_is 3 0) planets /\
   fixed q = count_planets (sign_index_is 3 1) planets /\
   mutable q = count_planets (sign_index_is 3 2) planets /\
   cardinal q + fixed q + mutable q = Z.of_nat (length planets))%Z.
Proof. apply tallies_of_signed_planets. Qed.

Lemma tallies_count_planets_by_sign_index_witness :
  (fire (calculate_elements
           [mkPlanetInfo "Sun" (zodiac_sign_name 100) 100 0 false])
   + earth (calculate_elements
              [mkPlanetInfo "Sun" (zodiac_sign_name 100) 100 0 false])
   + air (calculate_elements
            [mkPlanetInfo "Sun" (zodiac_sign_name 100) 100 0 false])
   + water (calculate_elements
              [mkPlanetInfo "Sun" (zodiac_sign_name 100) 100 0 false])
   = 1)%Z.
Proof.
  pose proof (tallies_count_planets_by_sign_index
                [mkPlanetInfo "Sun" (zodiac_sign_name 100) 100 0 false]) as H.
  cbv zeta in H. apply H. constructor; [reflexivity|constructor].
Defined.

Lemma py_in_elements_cover (s : string) :
  py_in s zodiac_signs_jp
  = py_in s fire_signs || py_in s earth_signs || py_in s air_signs
    || py_in s water_signs.
Proof.
  unfold py_in, zodiac_signs_jp, fire_signs, earth_signs, air_signs, water_signs.
  cbn [existsb]. btauto.
Qed.

Lemma py_in_qualities_cover (s : string) :
  py_in s zodiac_signs_jp
  = py_in s cardinal_signs || py_in s fixed_signs || py_in s mutable_signs.
Proof.
  unfold py_in, zodiac_signs_jp, cardinal_signs, fixed_signs, mutable_signs.
  cbn [existsb]. btauto.
Qed.

(** X13: whatever strings the planets carry as signs, a planet is counted
    at most once in each tally and only if its sign is one of the twelve
    names of the table: the four element counts, and the three quality
    counts, each sum to the number of planets with a sign of the table. *)
Theorem tallies_count_only_table_signs planets :
  let e := calculate_elements planets in
  let q := calculate_qualities planets in
  let known := count_planets (fun p => py_in (pi_sign p) zodiac_signs_jp) planets in
  (fire e + earth e + air e + water e = known /\
   cardinal q + fixed q + mutable q = known /\
   0 <= known <= Z.of_nat (length planets))%Z.
Proof.
  cbv zeta.
  pose proof (calculate_elements_fold planets (mkElementsInfo 0 0 0 0)) as He.
  pose proof (calculate_qualities_fold planets (mkQualitiesInfo 0 0 0)) as Hq.
  cbv zeta in He, Hq. fold (calculate_elements planets) in He.
  fold (calculate_qualities planets) in Hq.
  destruct He as (E1 & E2 & E3 & E4). destruct Hq as (Q1 & Q2 & Q3).
  rewrite E1, E2, E3, E4, Q1, Q2, Q3. cbn [fire earth air water cardinal fixed mutable].
  clear. induction planets as [|p planets IH]; [unfold count_planets; cbn; lia|].
  rewrite !count_planets_cons. cbn [length].
  rewrite py_in_elements_cover.
  pose proof (py_in_elements_cover (pi_sign p)) as Hc.
  rewrite py_in_qualities_cover in Hc.
  destruct (py_in (pi_sign p) fire_signs), (py_in (pi_sign p) earth_signs),
    (py_in (pi_sign p) air_signs), (py_in (pi_sign p) water_signs),
    (py_in (pi_sign p) cardinal_signs), (py_in (pi_sign p) fixed_signs),
    (py_in (pi_sign p) mutable_signs);
    cbn [negb andb orb] in *; try discriminate; lia.
Qed.

(** ** [calculate_planets] *)

Lemma replace_day_same (dt : DateTime) : replace_day dt (dt_day dt) = dt.
Proof. destruct dt. reflexivity. Qed.

Lemma Rltb_irrefl (x : R) : Rltb x x = false.
Proof. unfold Rltb. destruct (Rlt_dec x x); [lra|reflexivity]. Qed.

(** X14: on the first day of a month the "day before" is the same day
    ([replace(day=max(1, day - 1))]), so the two longitudes coincide and no
    planet is ever reported retrograde. *)
Theorem no_planet_is_retrograde_on_day_one ecliptic_latlon (dt_utc : DateTime) :
  dt_day dt_utc = 1%Z ->
  Forall (fun p => pd_retrograde p = false) (calculate_planets ecliptic_latlon dt_utc).
Proof.
  intros Hd. unfold calculate_planets. rewrite Hd.
  change (Z.max 1 (1 - 1)) with 1%Z. rewrite <- Hd, replace_day_same.
  apply List.Forall_forall. intros p Hp. apply in_map_iff in Hp.
  destruct Hp as ([planet_id jp_name] & <- & _). cbn. apply Rltb_irrefl.
Qed.

Lemma no_planet_is_retrograde_on_day_one_witness :
  Forall (fun p => pd_retrograde p = false)
    (calculate_planets (fun planet_id dt => (0, IZR planet_id + IZR (dt_hour dt)))
       (mkDateTime 2000 1 1 12 0 0 0)).
Proof.
  apply (no_planet_is_retrograde_on_day_one
           (fun planet_id dt => (0, IZR planet_id + IZR (dt_hour dt)))
           (mkDateTime 2000 1 1 12 0 0 0)).
  reflexivity.
Defined.

(** X15: the retrograde test compares the two longitudes as the ephemeris
    gives them, in [0,360).  A planet that moved forward by [d] degrees and
    crossed 0 degrees in between (from [a] to [a + d - 360]) has a smaller
    longitude than at the previous instant and is reported retrograde. *)
Theorem forward_motion_across_zero_is_reported_retrograde ecliptic_latlon
    (dt_utc : DateTime) (planet_id : Z) (jp_name : string) (a d : R) :
  In (planet_id, jp_name) planet_map ->
  snd (ecliptic_latlon planet_id
         (replace_day dt_utc (Z.max 1 (dt_day dt_utc - 1)))) = a ->
  snd (ecliptic_latlon planet_id dt_utc) = a + d - 360 ->
  0 <= a < 360 -> 0 < d < 180 -> 360 <= a + d ->
  exists p, In p (calculate_planets ecliptic_latlon dt_utc) /\
            name_jp p = jp_name /\ name_en p = planet_id /\
            pd_longitude p = a + d - 360 /\ pd_retrograde p = true.
Proof.
  intros Hin Hprev Hnow Ha Hd Hwrap.
  eexists. split.
  - unfold calculate_planets. apply in_map_iff.
    exists (planet_id, jp_name). split; [reflexivity|exact Hin].
  - cbn [name_jp name_en pd_longitude pd_retrograde].
    rewrite Hprev, Hnow.
    rewrite (pymod_small (a + d - 360)) by lra. rewrite (pymod_small a Ha).
    repeat split. unfold Rltb. destruct (Rlt_dec _ _); [reflexivity|lra].
Qed.

Lemma forward_motion_across_zero_is_reported_retrograde_witness :
  exists p,
    In p (calculate_planets
            (fun _ dt => (0, if (dt_day dt =? 15)%Z then 0.5 else 359.5))
            (mkDateTime 2000 1 15 12 0 0 0)) /\
    name_jp p = "太陽"%string /\ name_en p = 10%Z /\
    pd_longitude p = 359.5 + 1 - 360 /\ pd_retrograde p = true.
Proof.
  apply (forward_motion_across_zero_is_reported_retrograde
           (fun _ dt => (0, if (dt_day dt =? 15)%Z then 0.5 else 359.5))
           (mkDateTime 2000 1 15 12 0 0 0) 10 "太陽" 359.5 1);
    try reflexivity; try lra.
  - left. reflexivity.
  - cbn. lra.
Defined.

(** ** The chart built by [create] *)

Lemma calculate_planets_signed ecliptic_latlon dt_utc :
  Forall (fun p => pi_sign p = zodiac_sign_name (pi_longitude p))
         (planet_objects (calculate_planets ecliptic_latlon dt_utc)).
Proof.
  unfold planet_objects, calculate_planets. rewrite map_map.
  apply List.Forall_forall. intros p Hp. apply in_map_iff in Hp.
  destruct Hp as ([planet_id jp_name] & <- & _). reflexivity.
Qed.

Lemma placed_planets_keep_signs cusps planets planets' :
  Forall2 (placed_in_first_house cusps) planets planets' ->
  Forall (fun p => pi_sign p = zodiac_sign_name (pi_longitude p)) planets ->
  Forall (fun p => pi_sign p = zodiac_sign_name (pi_longitude p)) planets' /\
  Forall (fun p => (1 <= pi_house p <= 12)%Z) planets' /\
  map pi_name planets' = map pi_name planets /\
  length planets' = length planets.
Proof.
  induction 1 as [|p p' planets planets' Hp _ IH]; intros Hs.
  - repeat split; constructor.
  - inversion Hs as [|? ? Hps Hrest]; subst.
    destruct (IH Hrest) as (H1 & H2 & H3 & H4).
    destruct Hp as (Hn & Hsg & Hl & _ & Hh & _).
    repeat split.
    + constructor; [rewrite Hsg, Hl; exact Hps|exact H1].
    + constructor; [exact Hh|exact H2].
    + cbn [map]. rewrite Hn, H3. reflexivity.
    + cbn [length]. rewrite H4. reflexivity.
Qed.

(** X16: for every result that [calculate_houses] returns and every
    ephemeris, the chart assembled by [create] is complete: no [IndexError],
    ten planets in the order of [planet_map], each with a house in 1..12,
    twelve houses numbered 1..12, and element and quality tallies that each
    sum to 10. *)
Theorem chart_of_a_returned_result_is_complete ecliptic_latlon dt_utc
    fuel t lat lon system r :
  calculate_houses fuel t lat lon system = Returned r ->
  exists ch,
    create_chart (calculate_planets ecliptic_latlon dt_utc) r = Done ch /\
    map pi_name (ch_planets ch) = map snd planet_map /\
    length (ch_planets ch) = 10%nat /\
    Forall (fun p => (1 <= pi_house p <= 12)%Z) (ch_planets ch) /\
    map hi_number (ch_houses ch) = py_range 1 13 /\
    (fire (ch_elements ch) + earth (ch_elements ch) + air (ch_elements ch)
     + water (ch_elements ch) = 10)%Z /\
    (cardinal (ch_qualities ch) + fixed (ch_qualities ch)
     + mutable (ch_qualities ch) = 10)%Z.
Proof.
  intros Hr. apply calculate_houses_complete in Hr. destruct Hr as [Hnum _].
  unfold create_chart. cbv zeta.
  assert (Hlen : (12 <= length (house_objects r))%nat).
  { unfold house_objects. rewrite length_map, <- (length_map number), Hnum,
      py_range_1_13. cbn [length]. lia. }
  destruct (assign_planets_placed
              (planet_objects (calculate_planets ecliptic_latlon dt_utc))
              (house_objects r) Hlen) as (planets' & Ha & Hp).
  rewrite Ha. eexists. split; [reflexivity|]. cbn [ch_planets ch_houses ch_elements ch_qualities].
  destruct (placed_planets_keep_signs _ _ _ Hp
              (calculate_planets_signed ecliptic_latlon dt_utc))
    as (Hs & Hh & Hn & Hl).
  assert (Hl10 : length planets' = 10%nat).
  { rewrite Hl. unfold planet_objects, calculate_planets. rewrite !length_map.
    reflexivity. }
  pose proof (tallies_of_signed_planets planets' Hs) as Ht. cbv zeta in Ht.
  destruct Ht as (_ & _ & _ & _ & He & _ & _ & _ & Hq).
  rewrite Hl10 in He, Hq.
  split.
  { rewrite Hn. unfold planet_objects, calculate_planets. rewrite !map_map.
    apply map_ext. intros [planet_id jp_name]. reflexivity. }
  split; [exact Hl10|]. split; [exact Hh|].
  split; [|split; [exact He|exact Hq]].
  unfold house_objects. rewrite map_map. cbn [hi_number]. exact Hnum.
Qed.

Lemma chart_of_a_returned_result_is_complete_witness :
  exists r ch,
    calculate_houses fuel_sample t_sample 45 0 "placidus" = Returned r /\
    create_chart (calculate_planets (fun planet_id _ => (0, IZR planet_id))
                    (mkDateTime 2000 1 15 12 0 0 0)) r = Done ch /\
    length (ch_planets ch) = 10%nat /\
    Forall (fun p => (1 <= pi_house p <= 12)%Z) (ch_planets ch).
Proof.
  destruct (calculate_houses_finishes fuel_sample t_sample 45 0 "placidus"
              fuel_sample_enough asc_denominator_sample_45) as [r Hr].
  destruct (chart_of_a_returned_result_is_complete
              (fun planet_id _ => (0, IZR planet_id))
              (mkDateTime 2000 1 15 12 0 0 0)
              fuel_sample t_sample 45 0 "placidus" r Hr)
    as (ch & Hc & _ & Hl & Hh & _).
  exists r, ch. repeat split; assumption.
Defined.

(** ** The Swiss Ephemeris engine *)

Lemma mapM_all_Some {A B : Type} (f : A -> option B) (g : A -> B) (l : list A) :
  (forall x, In x l -> f x = Some (g x)) -> mapM f l = Some (map g l).
Proof.
  induction l as [|x l IH]; intros H; [reflexivity|].
  cbn. rewrite (H x (or_introl eq_refl)). cbn.
  rewrite IH by (intros y Hy; apply H; now right). reflexivity.
Qed.

Lemma mapM_one_None {A B : Type} (f : A -> option B) (l : list A) (x : A) :
  In x l -> f x = None -> mapM f l = None.
Proof.
  induction l as [|y l IH]; intros Hin Hx; [contradiction|].
  cbn. destruct Hin as [->|Hin]; [rewrite Hx; reflexivity|].
  destruct (f y); [|reflexivity]. cbn. rewrite (IH Hin Hx). reflexivity.
Qed.

(** Index of house [i] in the tuple [cusps]: 0-based for a 12-tuple,
    1-based otherwise. *)
Lemma swiss_result_houses (cusps ascmc : list R) :
  (length cusps = 12 \/ 13 <= length cusps)%nat -> (2 <= length ascmc)%nat ->
  swiss_result cusps ascmc
  = Some (mkResult
            (mkAnglePoint (get_zodiac_sign_jp (pymod (nth 0 ascmc 0) 360))
                          (pymod (nth 0 ascmc 0) 360))
            (mkAnglePoint
               (get_zodiac_sign_jp (pymod (pymod (nth 0 ascmc 0) 360 + 180) 360))
               (pymod (pymod (nth 0 ascmc 0) 360 + 180) 360))
            (mkAnglePoint (get_zodiac_sign_jp (pymod (nth 1 ascmc 0) 360))
                          (pymod (nth 1 ascmc 0) 360))
            (mkAnglePoint
               (get_zodiac_sign_jp (pymod (pymod (nth 1 ascmc 0) 360 + 180) 360))
               (pymod (pymod (nth 1 ascmc 0) 360 + 180) 360))
            (map (fun i =>
                    let idx := if Nat.eqb (length cusps) 12 then (i - 1)%Z else i in
                    let lon := pymod (nth (Z.to_nat idx) cusps 0) 360 in
                    mkHouse i (get_zodiac_sign_jp lon) lon)
                 (py_range 1 13))).
Proof.
  intros Hc Ha. unfold swiss_result.
  rewrite (lookup_nth_lt ascmc 0) by lia. rewrite (lookup_nth_lt ascmc 1) by lia.
  cbv zeta.
  rewrite (mapM_all_Some _
             (fun i =>
                mkHouse i
                  (get_zodiac_sign_jp
                     (pymod (nth (Z.to_nat (if Nat.eqb (length cusps) 12
                                            then (i - 1)%Z else i)) cusps 0) 360))
                  (pymod (nth (Z.to_nat (if Nat.eqb (length cusps) 12
                                         then (i - 1)%Z else i)) cusps 0) 360))).
  - reflexivity.
  - intros i Hi. rewrite py_range_1_13 in Hi.
    assert (Hr : (1 <= i <= 12)%Z) by (cbn in Hi; lia).
    rewrite lookup_nth_lt; [reflexivity|].
    destruct (Nat.eqb (length cusps) 12) eqn:He.
    + apply Nat.eqb_eq in He. lia.
    + apply Nat.eqb_neq in He. lia.
Qed.

(** X17: when [swe.houses] returned a 12-tuple (0-based) or a longer tuple
    (1-based, entry 0 unused) of cusps and at least ASC and MC, the Swiss
    path returns its own result, whatever the formula path would do (it is
    not run): twelve houses numbered 1..12 with longitudes in [0,360), house
    [i] read at index [i - 1] resp. [i], and a descendant and IC opposite to
    the ascendant and MC. *)
Theorem swiss_engine_result_is_complete (cusps ascmc : list R)
    (tz_aware : bool) fuel t lat lon system :
  (length cusps = 12 \/ 13 <= length cusps)%nat -> (2 <= length ascmc)%nat ->
  exists r,
    calculate_houses_with_engine true (HousesReturned cusps ascmc) tz_aware
      fuel t lat lon system
    = Returned r /\
    complete_cusps (houses r) /\
    (forall i, (1 <= i <= 12)%Z ->
       cusp r i = Some (pymod (nth (Z.to_nat (if Nat.eqb (length cusps) 12
                                              then i - 1 else i)) cusps 0) 360)) /\
    ap_longitude (ascendant r) = pymod (nth 0 ascmc 0) 360 /\
    ap_longitude (mc r) = pymod (nth 1 ascmc 0) 360 /\
    ap_longitude (descendant r) = pymod (ap_longitude (ascendant r) + 180) 360 /\
    ap_longitude (ic r) = pymod (ap_longitude (mc r) + 180) 360.
Proof.
  intros Hc Ha. unfold calculate_houses_with_engine.
  rewrite (swiss_result_houses cusps ascmc Hc Ha).
  eexists. split; [reflexivity|].
  cbn [houses ascendant descendant mc ic ap_longitude].
  split; [|split; [|repeat split]].
  - unfold complete_cusps. rewrite py_range_1_13. cbn [map number].
    split; [reflexivity|].
    repeat (apply List.Forall_cons; [cbn [longitude]; apply pymod_range|]).
    apply List.Forall_nil.
  - intros i Hi. unfold cusp. cbn [houses]. split_1_12 i H; reflexivity.
Qed.

Lemma swiss_engine_result_is_complete_witness :
  exists r,
    calculate_houses_with_engine true
      (HousesReturned [10; 40; 70; 100; 130; 160; 190; 220; 250; 280; 310; 340]
                      [10; 100])
      true fuel_sample t_sample 45 0 "placidus" = Returned r /\
    complete_cusps (houses r).
Proof.
  destruct (swiss_engine_result_is_complete
              [10; 40; 70; 100; 130; 160; 190; 220; 250; 280; 310; 340] [10; 100]
              true fuel_sample t_sample 45 0 "placidus") as (r & Hr & Hc & _).
  - left. reflexivity.
  - cbn. lia.
  - exists r. split; assumption.
Defined.

Lemma swiss_result_short (cusps ascmc : list R) :
  (length ascmc < 2 \/ length cusps < 12)%nat -> swiss_result cusps ascmc = None.
Proof.
  intros [Ha|Hc]; unfold swiss_result.
  - destruct ascmc as [|a0 [|a1 ascmc]]; cbn in Ha; try lia; reflexivity.
  - destruct (ascmc !! 0%nat); [|reflexivity].
    destruct (ascmc !! 1%nat); [|reflexivity]. cbv zeta.
    rewrite (mapM_one_None _ (py_range 1 13) 12%Z); [reflexivity| |].
    + rewrite py_range_1_13. cbn. tauto.
    + assert (He : Nat.eqb (length cusps) 12 = false) by (apply Nat.eqb_neq; lia).
      rewrite He. rewrite lookup_ge_None_2; [reflexivity|lia].
Qed.

(** X18: the Swiss path never makes the call fail; a failure inside it
    hands the call to the formula path.  With the engine not selected, or
    when the import itself failed, the outcome is that of the formula path
    on the caller's [dt_utc].  When the library raised after the import, or
    returned tuples that are too short (fewer than 12 cusps, or no MC), the
    formula path runs on the [dt_utc] that the Swiss path has rebound to
    UTC: this is the same outcome for a timezone-aware datetime, but for a
    naive one the formula path computes where, entered directly, it raises
    [ValueError]. *)
Theorem swiss_failure_falls_back_to_the_formula_path
    (engine_is_swiss : bool) (swe : swiss_attempt) (tz_aware : bool)
    fuel t lat lon system :
  (engine_is_swiss = false \/ swe = ImportFailed ->
   calculate_houses_with_engine engine_is_swiss swe tz_aware fuel t lat lon system
   = formula_path tz_aware fuel t lat lon system) /\
  (engine_is_swiss = true ->
   swe = LibraryRaised \/
   (exists cusps ascmc, swe = HousesReturned cusps ascmc /\
                        (length ascmc < 2 \/ length cusps < 12)%nat) ->
   calculate_houses_with_engine engine_is_swiss swe tz_aware fuel t lat lon system
   = calculate_houses fuel t lat lon system /\
   (tz_aware = true ->
    formula_path tz_aware fuel t lat lon system
    = calculate_houses fuel t lat lon system) /\
   (tz_aware = false ->
    formula_path tz_aware fuel t lat lon system = Raised ValueError)).
Proof.
  unfold calculate_houses_with_engine. split.
  - intros [->| ->]; [reflexivity|]. destruct engine_is_swiss; reflexivity.
  - intros -> Hfail. split; [|split; intros ->; reflexivity].
    destruct Hfail as [->|(cusps & ascmc & -> & Hshort)]; [reflexivity|].
    rewrite (swiss_result_short cusps ascmc Hshort). reflexivity.
Qed.

Lemma swiss_failure_falls_back_to_the_formula_path_witness :
  calculate_houses_with_engine true (HousesReturned [10; 40; 70] [10; 100]) false
    fuel_sample t_sample 45 0 "placidus"
  = calculate_houses fuel_sample t_sample 45 0 "placidus" /\
  formula_path false fuel_sample t_sample 45 0 "placidus" = Raised ValueError.
Proof.
  destruct (swiss_failure_falls_back_to_the_formula_path true
              (HousesReturned [10; 40; 70] [10; 100]) false
              fuel_sample t_sample 45 0 "placidus") as (_ & H).
  destruct H as (H1 & _ & H3).
  - reflexivity.
  - right. exists [10; 40; 70], [10; 100]. split; [reflexivity|].
    right. cbn. lia.
  - split; [exact H1|apply H3; reflexivity].
Defined.

(** ** Koch against Equal, and the one exception *)

Lemma cusp_koch_houses (asc mcl : R) :
  let c := fun i => option_map longitude
                      (List.find (fun h => (number h =? i)%Z) (koch_houses asc mcl)) in
  c 1%Z = Some asc /\
  c 2%Z = Some (pymod (asc + 30) 360) /\
  c 3%Z = Some (pymod (asc + 60) 360) /\
  c 4%Z = Some (pymod (mcl + 180) 360) /\
  c 5%Z = Some (pymod (asc + 120) 360) /\
  c 6%Z = Some (pymod (asc + 150) 360) /\
  c 7%Z = Some (pymod (asc + 180) 360) /\
  c 8%Z = Some (pymod (asc + 210) 360) /\
  c 9%Z = Some (pymod (asc + 240) 360) /\
  c 10%Z = Some mcl /\
  c 11%Z = Some (pymod (asc + 300) 360) /\
  c 12%Z = Some (pymod (asc + 330) 360).
Proof. cbv zeta. repeat split; reflexivity. Qed.

(** X19: the Koch branch differs from the Equal branch only on the MC axis:
    for the same input the two results have the same cusp for every house
    except 4 and 10, which Koch sets to the IC and the MC. *)
Theorem koch_is_equal_except_on_the_mc_axis fuel t lat lon rk re (i : Z) :
  calculate_houses fuel t lat lon "koch" = Returned rk ->
  calculate_houses fuel t lat lon "equal" = Returned re ->
  (1 <= i <= 12)%Z -> i <> 4%Z -> i <> 10%Z ->
  cusp rk i = cusp re i.
Proof.
  intros Hk He Hi H4 H10.
  apply calculate_houses_inv in Hk, He. cbv zeta in Hk, He.
  destruct Hk as (_ & _ & _ & _ & _ & Hhk). destruct He as (_ & _ & _ & _ & _ & Hhe).
  cbn [String.eqb Ascii.eqb Bool.eqb] in Hhk, Hhe.
  injection Hhk as Hhk. injection Hhe as Hhe.
  pose proof (asc_longitude_of_range (ramc_degrees_of t lon)
                (obliquity_degrees_of t) lat) as Ha.
  set (asc := asc_longitude_of _ _ _) in *. clearbody asc.
  set (mcl := mc_longitude_of _ _) in *. clearbody mcl.
  transitivity (option_map longitude
                  (List.find (fun h => (number h =? i)%Z) (koch_houses asc mcl))).
  { unfold cusp. rewrite <- Hhk. destruct (List.find _ _); reflexivity. }
  unfold cusp. rewrite <- Hhe, cusp_equal_houses by exact Hi. cbn [longitude].
  pose proof (cusp_koch_houses asc mcl) as Hc. cbv zeta in Hc.
  destruct Hc as (C1 & C2 & C3 & _ & C5 & C6 & C7 & C8 & C9 & _ & C11 & C12).
  split_1_12 i H; try contradiction.
  - rewrite C1. apply f_equal. change (IZR (1 - 1)) with (IZR 0).
    replace (asc + 0 * 30) with asc by lra. symmetry. now apply pymod_small.
  - rewrite C2. apply f_equal. apply (f_equal (fun x => pymod x 360)).
    change (IZR (2 - 1)) with (IZR 1). lra.
  - rewrite C3. apply f_equal. apply (f_equal (fun x => pymod x 360)).
    change (IZR (3 - 1)) with (IZR 2). lra.
  - rewrite C5. apply f_equal. apply (f_equal (fun x => pymod x 360)).
    change (IZR (5 - 1)) with (IZR 4). lra.
  - rewrite C6. apply f_equal. apply (f_equal (fun x => pymod x 360)).
    change (IZR (6 - 1)) with (IZR 5). lra.
  - rewrite C7. apply f_equal. apply (f_equal (fun x => pymod x 360)).
    change (IZR (7 - 1)) with (IZR 6). lra.
  - rewrite C8. apply f_equal. apply (f_equal (fun x => pymod x 360)).
    change (IZR (8 - 1)) with (IZR 7). lra.
  - rewrite C9. apply f_equal. apply (f_equal (fun x => pymod x 360)).
    change (IZR (9 - 1)) with (IZR 8). lra.
  - rewrite C11. apply f_equal. apply (f_equal (fun x => pymod x 360)).
    change (IZR (11 - 1)) with (IZR 10). lra.
  - rewrite C12. apply f_equal. apply (f_equal (fun x => pymod x 360)).
    change (IZR (12 - 1)) with (IZR 11). lra.
Qed.

Lemma koch_is_equal_except_on_the_mc_axis_witness :
  exists rk re,
    calculate_houses fuel_sample t_sample 45 0 "koch" = Returned rk /\
    calculate_houses fuel_sample t_sample 45 0 "equal" = Returned re /\
    cusp rk 5 = cusp re 5.
Proof.
  destruct (calculate_houses_finishes fuel_sample t_sample 45 0 "koch"
              fuel_sample_enough asc_denominator_sample_45) as [rk Hk].
  destruct (calculate_houses_finishes fuel_sample t_sample 45 0 "equal"
              fuel_sample_enough asc_denominator_sample_45) as [re He].
  exists rk, re. split; [exact Hk|]. split; [exact He|].
  apply (koch_is_equal_except_on_the_mc_axis fuel_sample t_sample 45 0 rk re 5 Hk He);
    lia.
Defined.


